(** * Polymedia suitcase: the Sui utilities and the RPC test page

  A shallow embedding of the parts of the repository that deal with
  address normalisation ([removeLeadingZeros]), RPC latency probing
  ([testRpcLatency] and the page's [runTest]), coin consolidation
  ([getCoinOfValue]) and paginated listing ([fetchAllDynamicFields]).

  Conventions of the embedding:
  - a JavaScript string is a [string] (the sources only inspect ASCII
    characters of it);
  - a JavaScript number holding a clock reading or a latency is a
    rational [Q]; only order and difference are used, rounding of the
    double-precision subtraction is not modelled;
  - an awaited call that may reject is a [Completion]: it either returns
    a value or throws a [JsError];
  - the remote node and the transaction builder are explicit state: the
    requests sent and the commands recorded are threaded through. *)

From Stdlib Require Import List String Ascii Bool Arith ZArith QArith Lia Lqa.
From Stdlib Require Import Sorting.Sorted Sorting.Permutation DecimalString Qround.
Import ListNotations.

Close Scope Q_scope.
Local Open Scope string_scope.
Local Open Scope list_scope.

(** ** JavaScript completions *)

Module Js.

(** A thrown [Error] object: its [name] (the class name found on the
    prototype chain) and its [message]. *)
Record JsError : Type := mkError { err_name : string; err_message : string }.

(** [String(err)], that is [Error.prototype.toString]. *)
Definition toString (e : JsError) : string :=
  if String.eqb (err_name e) "" then err_message e
  else if String.eqb (err_message e) "" then err_name e
  else (err_name e ++ ": " ++ err_message e)%string.

Inductive Completion (A : Type) : Type :=
| Return (a : A)
| Throw (e : JsError).
Arguments Return {A} a.
Arguments Throw {A} e.

Definition bind {A B} (c : Completion A) (k : A -> Completion B) : Completion B :=
  match c with
  | Return a => k a
  | Throw e => Throw e
  end.

(** [try { body } catch (err) { handler }] *)
Definition try_catch {A} (body : Completion A) (handler : JsError -> Completion A)
  : Completion A :=
  match body with
  | Return a => Return a
  | Throw e => handler e
  end.

(** [a ?? d] on an optional field. *)
Definition nullish {A} (a : option A) (d : A) : A :=
  match a with
  | Some v => v
  | None => d
  end.

End Js.
Import Js.

Declare Scope js_scope.
Delimit Scope js_scope with js.
Notation "'await' x <- c ;; k" := (Js.bind c (fun x => k))
(at level 61, x name, c at next level, right associativity) : js_scope.

(** ** Address normalisation: [removeLeadingZeros] *)

Module Address.

Definition is_zero (c : ascii) : bool := Ascii.eqb c "0".
Definition is_x (c : ascii) : bool := Ascii.eqb c "x".

(** The greedy tail [0*] of the pattern: what is left of [s] once every
    leading '0' is consumed. *)
Fixpoint skip_zeros (s : string) : string :=
  match s with
  | String c t => if is_zero c then skip_zeros t else s
  | EmptyString => s
  end.

(** [match_0x0plus s] is [Some rest] when the regular expression
    [/0x0+/] matches at the very start of [s], [rest] being the text
    after the (greedy) match. *)
Definition match_0x0plus (s : string) : option string :=
  match s with
  | String a (String b (String c t)) =>
      if is_zero a && is_x b && is_zero c then Some (skip_zeros t) else None
  | _ => None
  end.

(** [s.replaceAll(/0x0+/g, "0x")]: scan from the left; at a match emit
    the replacement and resume behind the match, otherwise copy one
    character.  The scan consumes at least one character per step, so
    [String.length s] steps are enough (see [replaceAll_fuel]). *)
Fixpoint replaceAll_0x0plus (fuel : nat) (s : string) : string :=
  match fuel with
  | O => s
  | S fuel' =>
      match match_0x0plus s with
      | Some rest => String "0" (String "x" (replaceAll_0x0plus fuel' rest))
      | None =>
          match s with
          | EmptyString => EmptyString
          | String c t => String c (replaceAll_0x0plus fuel' t)
          end
      end
  end.

Definition removeLeadingZeros (address : string) : string :=
  replaceAll_0x0plus (String.length address) address.

(** [n] copies of the digit '0'. *)
Fixpoint zeros (n : nat) : string :=
  match n with
  | O => EmptyString
  | S n' => String "0" (zeros n')
  end.

(** No position of [s] starts a match of [/0x0+/]. *)
Fixpoint clean (s : string) : bool :=
  match s with
  | EmptyString => true
  | String _ t =>
      match match_0x0plus s with
      | Some _ => false
      | None => clean t
      end
  end.

Definition head (s : string) : option ascii :=
  match s with
  | EmptyString => None
  | String c _ => Some c
  end.

End Address.
Import Address.

(** ** RPC latency probing: [testRpcLatency] *)

Module Probe.

(** A result returned by [testRpcLatency]: both [latency] and [error]
    are optional properties of the object. *)
Record RpcTestResult : Type := mkResult {
  endpoint : string;
  latency : option Q;
  error : option string;
}.

Inductive TestType : Type :=
| getLatestSuiSystemState
| getAllBalances
| getAllCoins
| getObject.

(** The argument object of [testRpcLatency]; an absent property is
    [None]. *)
Record ProbeRequest : Type := mkRequest {
  endpoints : list string;
  testType : option TestType;
  objectOrAddress : option string;
}.

(** The remote call an endpoint receives. *)
Inductive RpcCall : Type :=
| CallGetLatestSuiSystemState
| CallGetAllBalances (owner : string)
| CallGetAllCoins (owner : string)
| CallGetObject (id : string).

Definition default_owner : string :=
  "0xb871a42470b59c7184033a688f883cf24eb5e66eae1db62319bab27adb30d031".

(** The network as one call of [testRpcLatency] sees it.  Probes are
    identified by their position in [endpoints], so that two probes of
    the same url are two separate calls.
    - [now_before i]: the reading of [performance.now()] taken by probe
      [i] before its call;
    - [call i url c]: the outcome of creating the client for [url] and
      awaiting call [c] in probe [i]: the reading of [performance.now()]
      once the call has resolved, or the error thrown. *)
Record Network : Type := mkNetwork {
  now_before : nat -> Q;
  call : nat -> string -> RpcCall -> Completion Q;
}.

(** The call selected by [testType] (default
    ["getLatestSuiSystemState"]) and [objectOrAddress]. *)
Definition selected_call (testType : option TestType) (objectOrAddress : option string)
  : RpcCall :=
  match nullish testType getLatestSuiSystemState with
  | getLatestSuiSystemState => CallGetLatestSuiSystemState
  | getAllBalances => CallGetAllBalances (nullish objectOrAddress default_owner)
  | getAllCoins => CallGetAllCoins (nullish objectOrAddress default_owner)
  | getObject => CallGetObject (nullish objectOrAddress "0x2")
  end.

(** The body of the [async (url) => { try ... catch ... }] callback, run
    for the endpoint at position [i]. *)
Definition probe (net : Network) (testType : option TestType)
    (objectOrAddress : option string) (i : nat) (url : string)
  : Completion RpcTestResult :=
  try_catch
    (let startTime := now_before net i in
     await now <- call net i url (selected_call testType objectOrAddress) ;;
     let latency := (now - startTime)%Q in
     Return {| endpoint := url; latency := Some latency; error := None |})%js
    (fun err =>
       Return {| endpoint := url; latency := None; error := Some (toString err) |}).

(** [Promise.allSettled]: every promise is turned into a record of how
    it settled, in the order of the input. *)
Inductive PromiseSettledResult (A : Type) : Type :=
| fulfilled (value : A)
| rejected (reason : JsError).
Arguments fulfilled {A} value.
Arguments rejected {A} reason.

Definition settle {A} (c : Completion A) : PromiseSettledResult A :=
  match c with
  | Return a => fulfilled a
  | Throw e => rejected e
  end.

Definition allSettled {A} (promises : list (Completion A))
  : list (PromiseSettledResult A) :=
  map settle promises.

(** [array.map((x, i) => f i x)], positions counted from [start]. *)
Fixpoint mapi_from {A B} (start : nat) (f : nat -> A -> B) (l : list A) : list B :=
  match l with
  | [] => []
  | x :: t => f start x :: mapi_from (S start) f t
  end.

(** The callback of the final [results.map]. *)
Definition unwrap (result : PromiseSettledResult RpcTestResult) : RpcTestResult :=
  match result with
  | fulfilled value => value
  | rejected reason =>
      {| endpoint := "Unknown endpoint";
         latency := None;
         error := Some (if String.eqb (err_message reason) "" then "Unknown error"
                        else err_message reason) |}
  end.

Definition testRpcLatency (req : ProbeRequest) (net : Network)
  : Completion (list RpcTestResult) :=
  let promises :=
    mapi_from 0 (probe net (testType req) (objectOrAddress req)) (endpoints req) in
  let results := allSettled promises in
  Return (map unwrap results).

(** What probe [i] of [url] reports, read off the network. *)
Definition outcome (net : Network) (c : RpcCall) (i : nat) (url : string)
  : RpcTestResult :=
  match call net i url c with
  | Return now =>
      {| endpoint := url; latency := Some (now - now_before net i)%Q; error := None |}
  | Throw e =>
      {| endpoint := url; latency := None; error := Some (toString e) |}
  end.

(** The ordering the specification asks of a result sequence: latencies
    ascend, and no failure stands before a latency. *)
Definition sorted_failures_last (rs : list RpcTestResult) : Prop :=
  forall i j a b, (i < j)%nat ->
    nth_error rs i = Some a -> nth_error rs j = Some b ->
    match latency a, latency b with
    | Some la, Some lb => (la <= lb)%Q
    | None, Some _ => False
    | _, None => True
    end.

(** The scenario of the specification: A answers after 50 ms, B fails,
    C answers after 10 ms. *)
Definition abc_request : ProbeRequest :=
  {| endpoints := ["A"; "B"; "C"]; testType := None; objectOrAddress := None |}.

Definition abc_network : Network :=
  {| now_before := fun _ => 100%Q;
     call := fun _ url _ =>
       if String.eqb url "A" then Return 150%Q
       else if String.eqb url "C" then Return 110%Q
       else Throw (mkError "TypeError" "fetch failed") |}.

Definition result_A : RpcTestResult :=
  {| endpoint := "A"; latency := Some 50%Q; error := None |}.
Definition result_B : RpcTestResult :=
  {| endpoint := "B"; latency := None; error := Some "TypeError: fetch failed" |}.
Definition result_C : RpcTestResult :=
  {| endpoint := "C"; latency := Some 10%Q; error := None |}.

(** The same url probed twice: the first probe fails, the second
    answers after 7 ms. *)
Definition twice_request : ProbeRequest :=
  {| endpoints := ["A"; "A"]; testType := Some getObject; objectOrAddress := None |}.

Definition twice_network : Network :=
  {| now_before := fun _ => 0%Q;
     call := fun i _ _ =>
       match i with
       | O => Throw (mkError "Error" "")
       | _ => Return 7%Q
       end |}.


End Probe.
Import Probe.

(** ** The RPC test page: [PageHome] *)

Module PageHome.

Record RpcUrl : Type := mkRpcUrl { url : string; enabled : bool }.

(** The state hooks of the component. *)
Record State : Type := mkState {
  rpcs : list RpcUrl;
  results : list RpcTestResult;
  isRunning : bool;
}.

(** The comparator [(a, b) => (a.latency ?? 99999) - (b.latency ?? 99999)]. *)
Definition sort_key (a : RpcTestResult) : Q := nullish (latency a) 99999%Q.
Definition compareFn (a b : RpcTestResult) : Q := (sort_key a - sort_key b)%Q.

(** The order the comparator induces on results. *)
Definition key_le (a b : RpcTestResult) : Prop := (sort_key a <= sort_key b)%Q.

(** [Array.prototype.sort(compareFn)].  The language requires the sort
    to be stable; for a consistent comparator its result is therefore
    determined, and is computed here by stable insertion: an element
    goes before the first one it does not compare greater than. *)
Fixpoint sort_insert {A} (cmp : A -> A -> Q) (x : A) (l : list A) : list A :=
  match l with
  | [] => [x]
  | y :: t => if Qle_bool (cmp x y) 0 then x :: y :: t else y :: sort_insert cmp x t
  end.

Definition Array_sort {A} (cmp : A -> A -> Q) (l : list A) : list A :=
  fold_right (sort_insert cmp) [] l.

(** [runTest]: probe the enabled endpoints (default test type), sort the
    results, store them.  [measureRpcLatency] is the name under which
    the page imports [testRpcLatency]. *)
Definition measureRpcLatency := testRpcLatency.

Definition runTest (st : State) (net : Network) : Completion State :=
  (let st := {| rpcs := rpcs st; results := results st; isRunning := true |} in
   await newResults <-
     measureRpcLatency
       {| endpoints := map url (filter enabled (rpcs st));
          testType := None; objectOrAddress := None |} net ;;
   let newResults := Array_sort compareFn newResults in
   let st := {| rpcs := rpcs st; results := newResults; isRunning := isRunning st |} in
   Return {| rpcs := rpcs st; results := results st; isRunning := false |})%js.

Definition abc_state : State :=
  {| rpcs := [mkRpcUrl "A" true; mkRpcUrl "B" true; mkRpcUrl "C" true];
     results := []; isRunning := false |}.

(** A answers only after 100 s, which is above the key given to a
    failure; B fails. *)
Definition slow_state : State :=
  {| rpcs := [mkRpcUrl "A" true; mkRpcUrl "B" true; mkRpcUrl "C" false];
     results := []; isRunning := false |}.

Definition slow_network : Network :=
  {| now_before := fun _ => 0%Q;
     call := fun _ url _ =>
       if String.eqb url "A" then Return 100000%Q
       else Throw (mkError "TypeError" "fetch failed") |}.

End PageHome.
Import PageHome.

(** ** The remote client and the transaction builder *)

Module Sui.

(** A page of a paginated listing ([PaginatedCoins], [DynamicFieldPage]). *)
Record Page (T : Type) : Type := mkPage {
  data : list T;
  nextCursor : option string;
  hasNextPage : bool;
}.
Arguments mkPage {T} data nextCursor hasNextPage.
Arguments data {T} p.
Arguments nextCursor {T} p.
Arguments hasNextPage {T} p.

Record CoinStruct : Type := mkCoin { coinObjectId : string; balance : Z }.

Record DynamicFieldInfo : Type := mkField { objectId : string; name : string }.

(** A request sent to the node. *)
Inductive Request : Type :=
| GetCoins (owner coinType : string) (cursor : option string)
| GetDynamicFields (parentId : string) (cursor : option string).

(** The node behind a [SuiClient].  Each method receives the number of
    requests the client has sent before, so that the answer may depend
    on the history as well as on the arguments. *)
Record SuiClient : Type := mkClient {
  getCoins : nat -> string -> string -> option string -> Completion (Page CoinStruct);
  getDynamicFields : nat -> string -> option string -> Completion (Page DynamicFieldInfo);
}.

(** What a run leaves behind, in order. *)
Inductive Event : Type :=
| Sent (r : Request)
| Slept (ms : Z)
| Logged (line : string).

Definition Trace := list Event.

Fixpoint requests (tr : Trace) : list Request :=
  match tr with
  | [] => []
  | Sent r :: t => r :: requests t
  | _ :: t => requests t
  end.

(** Modelled from the spec: the transaction-builder collaborator (the
    SDK's [TransactionBlock]) is not part of the repository.  It offers
    a reference to an object ([txb.object]), a pure value ([txb.pure]),
    the implicit gas input ([txb.gas]), one merge operation taking a
    target and a list of sources, and a split that yields a fragment.
    The builder is the list of commands recorded so far; a fragment
    ([TransactionResult]) names the command that produces it. *)
Inductive Argument : Type :=
| GasCoin
| Pure (value : Z)
| Object (id : string).

Inductive Command : Type :=
| SplitCoins (coin : Argument) (amounts : list Argument)
| MergeCoins (destination : Argument) (sources : list string).

Definition TransactionBlock := list Command.

Inductive TransactionResult : Type := Result (index : nat).

Definition is_merge (c : Command) : bool :=
  match c with
  | MergeCoins _ _ => true
  | SplitCoins _ _ => false
  end.

Definition is_split (c : Command) : bool := negb (is_merge c).

(** The mutable surroundings of [getCoinOfValue]. *)
Record World : Type := mkWorld { trace : Trace; txb : TransactionBlock }.

(** Effectful code: a completion together with the world it leaves. *)
Definition M (A : Type) : Type := World -> Completion A * World.

Definition ret {A} (a : A) : M A := fun w => (Return a, w).
Definition throw {A} (e : JsError) : M A := fun w => (Throw e, w).
Definition mbind {A B} (m : M A) (k : A -> M B) : M B :=
  fun w =>
    match m w with
    | (Return a, w') => k a w'
    | (Throw e, w') => (Throw e, w')
    end.

Definition splitCoins (coin : Argument) (amounts : list Argument) : M TransactionResult :=
  fun w =>
    (Return (Result (List.length (txb w))),
     {| trace := trace w; txb := txb w ++ [SplitCoins coin amounts] |}).

Definition mergeCoins (destination : Argument) (sources : list string) : M unit :=
  fun w =>
    (Return tt,
     {| trace := trace w; txb := txb w ++ [MergeCoins destination sources] |}).

(** [await suiClient.getCoins({ owner, coinType, cursor })] *)
Definition client_getCoins (suiClient : SuiClient) (owner coinType : string)
    (cursor : option string) : M (Page CoinStruct) :=
  fun w =>
    (getCoins suiClient (List.length (requests (trace w))) owner coinType cursor,
     {| trace := trace w ++ [Sent (GetCoins owner coinType cursor)]; txb := txb w |}).

End Sui.
Import Sui.

Declare Scope sui_scope.
Delimit Scope sui_scope with sui.
Notation "x <- c ;; k" := (Sui.mbind c (fun x => k))
(at level 61, c at next level, right associativity) : sui_scope.
Notation "c ;;; k" := (Sui.mbind c (fun _ => k))
(at level 61, right associativity) : sui_scope.

(** ** Coin consolidation: [getCoinOfValue] *)

Module Coins.

Definition SUI : string := "0x2::sui::SUI".

(** Reading [firstCoin.coinObjectId] when [paginatedCoins.data] is empty. *)
Definition undefined_read : JsError :=
  mkError "TypeError" "Cannot read properties of undefined (reading 'coinObjectId')".

Definition getCoinOfValue (suiClient : SuiClient) (ownerAddress coinType : string)
    (coinValue : Z) : M TransactionResult :=
  let coinType := removeLeadingZeros coinType in
  if String.eqb coinType SUI then
    splitCoins GasCoin [Pure coinValue]
  else
    (paginatedCoins <- client_getCoins suiClient ownerAddress coinType None ;;
     match data paginatedCoins with
     | [] => throw undefined_read
     | firstCoin :: otherCoins =>
         let firstCoinInput := Object (coinObjectId firstCoin) in
         (if (0 <? List.length otherCoins)%nat
          then mergeCoins firstCoinInput (map coinObjectId otherCoins)
          else ret tt) ;;;
         splitCoins firstCoinInput [Pure coinValue]
     end)%sui.

(** A node that never answers a coin listing. *)
Definition offline : SuiClient :=
  {| getCoins := fun _ _ _ _ => Throw (mkError "Error" "getCoins must not be called");
     getDynamicFields := fun _ _ _ => Throw (mkError "Error" "offline") |}.

(** A node holding three coins of type [0xabc::usd::USD] on two pages. *)
Definition two_pages : SuiClient :=
  {| getCoins := fun _ _ _ cursor =>
       match cursor with
       | None =>
           Return (mkPage [mkCoin "0xc1" 5; mkCoin "0xc2" 6] (Some "p2") true)
       | Some _ => Return (mkPage [mkCoin "0xc3" 7] None false)
       end;
     getDynamicFields := fun _ _ _ => Throw (mkError "Error" "no fields") |}.

Definition fresh : World := {| trace := []; txb := [] |}.

(** The world once the listing request of the non-gas path is sent. *)
Definition listed (ownerAddress coinType : string) (w : World) : World :=
  {| trace := trace w ++ [Sent (GetCoins ownerAddress (removeLeadingZeros coinType) None)];
     txb := txb w |}.

End Coins.
Import Coins.

(** ** Paginated listing: [fetchAllDynamicFields] *)

Module Fields.

Definition string_of_nat (n : nat) : string :=
  NilEmpty.string_of_uint (Nat.to_uint n).

(** The [while (hasNextPage)] loop with its loop-carried variables.
    Each turn sends one request, so the loop is unrolled at most [fuel]
    times; [None] means the node still reported a further page when the
    fuel ran out. *)
Fixpoint fetch_loop (suiClient : SuiClient) (parentId : string)
    (sleepBetweenRequests : Z) (verbose : bool) (fuel : nat)
    (allFieldsInfo : list DynamicFieldInfo) (hasNextPage_ : bool)
    (cursor : option string) (pageNumber : nat) (tr : Trace)
  : option (Completion (list DynamicFieldInfo) * Trace) :=
  if negb hasNextPage_ then Some (Return allFieldsInfo, tr)
  else
    match fuel with
    | O => None
    | S fuel' =>
        let tr :=
          if verbose then tr ++ [Logged ("Fetching page " ++ string_of_nat pageNumber)]
          else tr in
        let pageNumber := S pageNumber in
        let answer :=
          getDynamicFields suiClient (List.length (requests tr)) parentId cursor in
        let tr := tr ++ [Sent (GetDynamicFields parentId cursor)] in
        match answer with
        | Throw e => Some (Throw e, tr)
        | Return page =>
            let allFieldsInfo := allFieldsInfo ++ data page in
            let tr :=
              if (0 <? sleepBetweenRequests)%Z then tr ++ [Slept sleepBetweenRequests]
              else tr in
            fetch_loop suiClient parentId sleepBetweenRequests verbose fuel'
              allFieldsInfo (hasNextPage page) (nextCursor page) pageNumber tr
        end
    end.

Definition fetchAllDynamicFields (suiClient : SuiClient) (parentId : string)
    (sleepBetweenRequests : Z) (verbose : bool) (fuel : nat) (tr : Trace)
  : option (Completion (list DynamicFieldInfo) * Trace) :=
  fetch_loop suiClient parentId sleepBetweenRequests verbose fuel [] true None 1 tr.

(** [serves c parentId k cursor pages]: asked with [cursor] as its
    request number [k], and then with the cursor of each page it
    returns, the node delivers [pages], reporting a further page with
    every page but the last. *)
Inductive serves (c : SuiClient) (parentId : string)
  : nat -> option string -> list (Page DynamicFieldInfo) -> Prop :=
| serves_last k cursor p :
    getDynamicFields c k parentId cursor = Return p ->
    hasNextPage p = false ->
    serves c parentId k cursor [p]
| serves_more k cursor p ps :
    getDynamicFields c k parentId cursor = Return p ->
    hasNextPage p = true ->
    serves c parentId (S k) (nextCursor p) ps ->
    serves c parentId k cursor (p :: ps).

(** The requests that fetch [pages], the first one with [cursor]. *)
Fixpoint page_requests (parentId : string) (cursor : option string)
    (pages : list (Page DynamicFieldInfo)) : list Request :=
  match pages with
  | [] => []
  | p :: ps => GetDynamicFields parentId cursor :: page_requests parentId (nextCursor p) ps
  end.

(** A node that answers its [k]-th request with the [k]-th page of a
    fixed list. *)
Definition scripted (pages : list (Page DynamicFieldInfo)) : SuiClient :=
  {| getCoins := fun _ _ _ _ => Throw (mkError "Error" "no coins");
     getDynamicFields := fun k _ _ =>
       match nth_error pages k with
       | Some p => Return p
       | None => Throw (mkError "Error" "no such page")
       end |}.

Definition f (n : nat) : DynamicFieldInfo :=
  mkField ("0xf" ++ string_of_nat n) ("field" ++ string_of_nat n).

(** Three pages of sizes 2, 2 and 1. *)
Definition three_pages : list (Page DynamicFieldInfo) :=
  [ mkPage [f 1; f 2] (Some "c1") true;
    mkPage [f 3; f 4] (Some "c2") true;
    mkPage [f 5] None false ].

End Fields.
Import Fields.

(** ** Miscellaneous utilities: [chunkArray], [makeRanges]

    The numbers these functions take (a chunk size, the bounds and the
    size of the ranges) are integers here; [fuel] bounds the turns of
    their loops, which the sources leave unbounded. *)

Module Misc.

(** An index argument of [Array.prototype.slice], made relative to an
    array of length [len]: a negative index counts from the end, and
    the result is kept within the array. *)
Definition relative_index (len i : Z) : Z :=
  if (i <? 0)%Z then Z.max (len + i) 0 else Z.min i len.

(** [array.slice(start, end)] *)
Definition Array_slice {A} (array : list A) (start end_ : Z) : list A :=
  let len := Z.of_nat (List.length array) in
  let k := relative_index len start in
  let final := relative_index len end_ in
  firstn (Z.to_nat (final - k)) (skipn (Z.to_nat k) array).

(** The [for] loop of [chunkArray] with its counter [i] and the chunks
    pushed so far.  [None]: the loop condition still held when the fuel
    ran out. *)
Fixpoint chunk_loop {A} (fuel : nat) (array : list A) (chunkSize i : Z)
    (chunks : list (list A)) : option (list (list A)) :=
  if (i <? Z.of_nat (List.length array))%Z then
    match fuel with
    | O => None
    | S fuel' =>
        let chunk := Array_slice array i (i + chunkSize) in
        chunk_loop fuel' array chunkSize (i + chunkSize) (chunks ++ [chunk])
    end
  else Some chunks.

Definition chunkArray {A} (fuel : nat) (array : list A) (chunkSize : Z)
  : option (list (list A)) :=
  chunk_loop fuel array chunkSize 0 [].

(** The [for] loop of [makeRanges]; a range [[start, end]] is a pair. *)
Fixpoint range_loop (fuel : nat) (to size start : Z) (ranges : list (Z * Z))
  : option (list (Z * Z)) :=
  if (start <? to)%Z then
    match fuel with
    | O => None
    | S fuel' =>
        let end_ := Z.min (start + size) to in
        range_loop fuel' to size (start + size) (ranges ++ [(start, end_)])
    end
  else Some ranges.

Definition makeRanges (fuel : nat) (from to size : Z) : option (list (Z * Z)) :=
  range_loop fuel to size from [].


(** Every element of [l] but the last satisfies [P]. *)
Fixpoint all_but_last {A} (P : A -> Prop) (l : list A) : Prop :=
  match l with
  | [] => True
  | [_] => True
  | x :: (_ :: _) as t => P x /\ all_but_last P t
  end.

(** The number of chunks of size [size] needed for [n] elements. *)
Definition chunk_count (n size : Z) : Z := ((n + size - 1) / size)%Z.

End Misc.
Import Misc.

(** ** Further notions used to state properties *)

Module Notions.

(** The characters of [s] other than the digit '0', in order. *)
Fixpoint nonzero_chars (s : string) : list ascii :=
  match s with
  | EmptyString => []
  | String c t => if is_zero c then nonzero_chars t else c :: nonzero_chars t
  end.

(** A result carries a latency and no error, or an error and no
    latency. *)
Definition one_outcome (r : RpcTestResult) : Prop :=
  (exists l, latency r = Some l /\ error r = None)
  \/ (exists m, latency r = None /\ error r = Some m).

(** [fails_after c parentId k cursor pages e]: from request number [k]
    and [cursor] on, the node delivers [pages], announcing a further page
    with each of them, and then fails with [e]. *)
Inductive fails_after (c : SuiClient) (parentId : string)
  : nat -> option string -> list (Page DynamicFieldInfo) -> JsError -> Prop :=
| fails_now k cursor e :
    getDynamicFields c k parentId cursor = Throw e ->
    fails_after c parentId k cursor [] e
| fails_later k cursor p ps e :
    getDynamicFields c k parentId cursor = Return p ->
    hasNextPage p = true ->
    fails_after c parentId (S k) (nextCursor p) ps e ->
    fails_after c parentId k cursor (p :: ps) e.

(** The cursor that follows [pages], fetched from [cursor] on. *)
Fixpoint cursor_after (cursor : option string) (pages : list (Page DynamicFieldInfo))
  : option string :=
  match pages with
  | [] => cursor
  | p :: ps => cursor_after (nextCursor p) ps
  end.

(** What fetching [pages] leaves in the trace: per page an optional log
    line with the page number, the request, and an optional pause. *)
Fixpoint page_events (parentId : string) (sleepBetweenRequests : Z) (verbose : bool)
    (cursor : option string) (pageNumber : nat) (pages : list (Page DynamicFieldInfo))
  : Trace :=
  match pages with
  | [] => []
  | p :: ps =>
      (if verbose then [Logged ("Fetching page " ++ string_of_nat pageNumber)] else [])
      ++ [Sent (GetDynamicFields parentId cursor)]
      ++ (if (0 <? sleepBetweenRequests)%Z then [Slept sleepBetweenRequests] else [])
      ++ page_events parentId sleepBetweenRequests verbose (nextCursor p) (S pageNumber) ps
  end.

(** A node that announces a further page with every answer. *)
Definition endless : SuiClient :=
  {| getCoins := fun _ _ _ _ => Throw (mkError "Error" "no coins");
     getDynamicFields := fun k _ _ =>
       Return (mkPage [f k] (Some (string_of_nat k)) true) |}.

(** A node that delivers the first two of [three_pages] and then fails. *)
Definition failing : SuiClient :=
  {| getCoins := fun _ _ _ _ => Throw (mkError "Error" "no coins");
     getDynamicFields := fun k _ _ =>
       match k with
       | 0 => Return (mkPage [f 1; f 2] (Some "c1") true)
       | 1 => Return (mkPage [f 3; f 4] (Some "c2") true)
       | _ => Throw (mkError "Error" "429 Too Many Requests")
       end |}.

End Notions.
Import Notions.

(** ** The RPC test page: selecting endpoints *)

Module PageActions.

(** The updater [onRpcCheckboxChange] passes to [setRpcs]. *)
Definition toggle (u : string) (prevRpcs : list RpcUrl) : list RpcUrl :=
  map (fun rpc =>
         if negb (String.eqb (url rpc) u) then rpc
         else {| url := url rpc; enabled := negb (enabled rpc) |})
      prevRpcs.

Definition onRpcCheckboxChange (u : string) (st : State) : State :=
  {| rpcs := toggle u (rpcs st); results := results st; isRunning := isRunning st |}.

End PageActions.
Import PageActions.

(** ** Explorer links: [makePolymediaUrl], [makeSuiscanUrl], [makeSuivisionUrl] *)

Module Explorer.

(** The type [SuiExplorerItem] of string literals. *)
Inductive SuiExplorerItem : Type := address | object | package | txblock | coin.

(** The string a value of [SuiExplorerItem] is. *)
Definition item_text (kind : SuiExplorerItem) : string :=
  match kind with
  | address => "address"
  | object => "object"
  | package => "package"
  | txblock => "txblock"
  | coin => "coin"
  end.

Definition isLocalnet (network : string) : bool :=
  String.eqb network "localnet" || String.eqb network "http://127.0.0.1:9000".

(** [s.split("::")[0]]: the text before the first ["::"], all of [s] when
    there is none. *)
Fixpoint split_first (s : string) : string :=
  match s with
  | EmptyString => EmptyString
  | String c t => if String.prefix "::" s then EmptyString else String c (split_first t)
  end.

Definition makePolymediaUrl (network : string) (kind : SuiExplorerItem) (addr : string)
  : string :=
  let baseUrl :=
    if isLocalnet network then "http://localhost:3000"
    else "https://explorer.polymedia.app" in
  let '(kind, addr) :=
    match kind with
    | package => (object, addr)
    | coin => (object, split_first addr)
    | _ => (kind, addr)
    end in
  let url := (baseUrl ++ "/" ++ item_text kind ++ "/" ++ addr)%string in
  if negb (String.eqb network "mainnet") then
    let networkLabel := if String.eqb network "localnet" then "local" else network in
    (url ++ "?network=" ++ networkLabel)%string
  else url.

Definition makeSuiscanUrl (network : string) (kind : SuiExplorerItem) (addr : string)
  : string :=
  if isLocalnet network then makePolymediaUrl network kind addr
  else
    let baseUrl := ("https://suiscan.xyz/" ++ network)%string in
    let path :=
      match kind with
      | address => "account"
      | txblock => "tx"
      | package => "object"
      | _ => item_text kind
      end in
    (baseUrl ++ "/" ++ path ++ "/" ++ addr)%string.

Definition makeSuivisionUrl (network : string) (kind : SuiExplorerItem) (addr : string)
  : string :=
  if isLocalnet network then makePolymediaUrl network kind addr
  else
    let baseUrl :=
      if String.eqb network "mainnet" then "https://suivision.xyz"
      else ("https://" ++ network ++ ".suivision.xyz")%string in
    let path :=
      match kind with
      | address => "account"
      | _ => item_text kind
      end in
    (baseUrl ++ "/" ++ path ++ "/" ++ addr)%string.

(** [s] holds no colon. *)
Fixpoint no_colon (s : string) : bool :=
  match s with
  | EmptyString => true
  | String c t => negb (Ascii.eqb c ":") && no_colon t
  end.

End Explorer.

(** ** Abbreviating addresses: [shortenSuiAddress] *)

Module Shorten.

Definition is_hex (c : ascii) : bool :=
  let n := nat_of_ascii c in
  ((97 <=? n) && (n <=? 102) || (65 <=? n) && (n <=? 70) || (48 <=? n) && (n <=? 57))%nat.

(** The longest run of hexadecimal digits at the start of [s], and what
    follows it. *)
Fixpoint take_hex (s : string) : string * string :=
  match s with
  | String c t =>
      if is_hex c then let (h, rest) := take_hex t in (String c h, rest)
      else (EmptyString, s)
  | EmptyString => (EmptyString, EmptyString)
  end.

(** [match_address s] is [Some (m, rest)] when [/0[xX][a-fA-F0-9]{1,}/]
    matches at the very start of [s]: [m] is the (greedy) match and
    [rest] the text behind it. *)
Definition match_address (s : string) : option (string * string) :=
  match s with
  | String a (String b t) =>
      if is_zero a && (Ascii.eqb b "x" || Ascii.eqb b "X") then
        match take_hex t with
        | (EmptyString, _) => None
        | (h, rest) => Some (String a (String b h), rest)
        end
      else None
  | _ => None
  end.

(** [text.replace(addressRegex, replacer)] for the global [addressRegex]:
    every match, found from the left and without overlap, gives way to
    what [replacer] makes of it.  One character at least is consumed per
    step, so [String.length text] steps are enough. *)
Fixpoint replace_addresses (fuel : nat) (replacer : string -> string) (s : string)
  : string :=
  match fuel with
  | O => s
  | S fuel' =>
      match match_address s with
      | Some (m, rest) => (replacer m ++ replace_addresses fuel' replacer rest)%string
      | None =>
          match s with
          | EmptyString => EmptyString
          | String c t => String c (replace_addresses fuel' replacer t)
          end
      end
  end.

(** [s.slice(start, end)], with the relative indices of [Array_slice]. *)
Definition String_slice (s : string) (start end_ : Z) : string :=
  let len := Z.of_nat (String.length s) in
  let k := relative_index len start in
  let final := relative_index len end_ in
  substring (Z.to_nat k) (Z.to_nat (final - k)) s.

(** [s.slice(start)] *)
Definition String_slice_from (s : string) (start : Z) : string :=
  String_slice s start (Z.of_nat (String.length s)).

(** The callback given to [replace]. *)
Definition abbreviate (start end_ : Z) (separator prefix : string) (m : string) : string :=
  if (Z.of_nat (String.length m) - Z.of_nat (String.length prefix) <=? start + end_)%Z
  then m
  else (prefix ++ String_slice m 2 (2 + start) ++ separator
        ++ String_slice_from m (- end_))%string.

(** [text] is [None] for [null] and [undefined]. *)
Definition shortenSuiAddress (text : option string) (start end_ : Z)
    (separator prefix : string) : string :=
  match text with
  | None => EmptyString
  | Some EmptyString => EmptyString
  | Some text =>
      replace_addresses (String.length text) (abbreviate start end_ separator prefix) text
  end.

Fixpoint all_hex (s : string) : bool :=
  match s with
  | EmptyString => true
  | String c t => is_hex c && all_hex t
  end.

(** [s] holds no digit '0'. *)
Fixpoint no_zero (s : string) : bool :=
  match s with
  | EmptyString => true
  | String c t => negb (is_zero c) && no_zero t
  end.

End Shorten.
Import Shorten.

(** ** Random addresses: [generateRandomAddress] *)

Module RandomAddress.

(** The digit of value [d] (0 to 15) in [Number.prototype.toString(16)]. *)
Definition hex_digit (d : Z) : ascii :=
  match String.get (Z.to_nat d) "0123456789abcdef" with
  | Some c => c
  | None => "0"%char
  end.

(** The hexadecimal digits of a non-negative integer, most significant
    first; [fuel] bounds the number of digits. *)
Fixpoint hex_digits (fuel : nat) (n : Z) : string :=
  match fuel with
  | O => EmptyString
  | S fuel' =>
      if (n <? 16)%Z then String (hex_digit n) EmptyString
      else (hex_digits fuel' (n / 16) ++ String (hex_digit (n mod 16)) EmptyString)%string
  end.

(** [n.toString(16)] for an integer [n]. *)
Definition toString16 (n : Z) : string :=
  if (n <? 0)%Z then String "-" (hex_digits (S (Z.to_nat (Z.log2 (- n)))) (- n))
  else hex_digits (S (Z.to_nat (Z.log2 n))) n.

(** [count] characters taken from [pad] repeated over and over. *)
Fixpoint fill (count : nat) (pad current : string) : string :=
  match count with
  | O => EmptyString
  | S count' =>
      match current with
      | String c rest => String c (fill count' pad rest)
      | EmptyString =>
          match pad with
          | String c rest => String c (fill count' pad rest)
          | EmptyString => EmptyString
          end
      end
  end.

(** [s.padStart(targetLength, padString)] *)
Definition padStart (s : string) (targetLength : nat) (padString : string) : string :=
  if (targetLength <=? String.length s)%nat then s
  else (fill (targetLength - String.length s) padString padString ++ s)%string.

(** [randomByteHex], given the number [r] that [Math.random()] returns. *)
Definition randomByteHex (r : Q) : string :=
  padStart (toString16 (Qfloor (r * 256))) 2 "0".

(** [array.join("")] *)
Definition join (parts : list string) : string :=
  fold_right String.append EmptyString parts.

(** [random k] is what the [k]-th call of [Math.random()] returns. *)
Definition generateRandomAddress (random : nat -> Q) : string :=
  ("0x" ++ join (map (fun k => randomByteHex (random k)) (seq 0 32)))%string.

(** A digit of [0-9a-f]. *)
Definition is_lower_hex (c : ascii) : bool :=
  let n := nat_of_ascii c in
  ((48 <=? n) && (n <=? 57) || (97 <=? n) && (n <=? 102))%nat.

Fixpoint all_lower_hex (s : string) : bool :=
  match s with
  | EmptyString => true
  | String c t => is_lower_hex c && all_lower_hex t
  end.

(** The text made for the byte [b] is two digits of [0-9a-f]. *)
Definition byte_ok (b : Z) : bool :=
  let s := padStart (toString16 b) 2 "0" in
  Nat.eqb (String.length s) 2 && all_lower_hex s.

(** A source of numbers for the examples: 0, 1/8, ..., 7/8, 0, ... *)
Definition eighths (k : nat) : Q := (Z.of_nat (k mod 8) # 8)%Q.

End RandomAddress.
Import RandomAddress.

(** ** Dev-inspect: [devInspectAndGetResults], [devInspectAndGetReturnValues] *)

Module Inspect.

(** A return value as the node sends it: its bytes and its type. *)
Definition ReturnValue : Type := (list Z * string)%type.

Record SuiExecutionResult : Type := mkExecution {
  returnValues : option (list ReturnValue);
}.

Record DevInspectResults : Type := mkInspection {
  resp_error : option string;
  resp_results : option (list SuiExecutionResult);
}.

(** Whether an optional text counts as true in a condition. *)
Definition truthy (s : option string) : bool :=
  match s with
  | Some s => negb (String.eqb s "")
  | None => false
  end.

(** [Error(message)] *)
Definition Error_ (message : string) : JsError := mkError "Error" message.

Definition default_sender : string :=
  "0x7777777777777777777777777777777777777777777777777777777777777777".

(** [Uint8Array.from(bytes)]: every number is reduced modulo 256. *)
Definition Uint8Array_from (bytes : list Z) : list Z :=
  map (fun b => (b mod 256)%Z) bytes.

(** A [for ... of] loop that pushes what [body] returns for each element
    and is left by the first throw. *)
Fixpoint for_each {A B} (body : A -> Completion B) (l : list A) : Completion (list B) :=
  match l with
  | [] => Return []
  | x :: t =>
      (await y <- body x ;;
       await ys <- for_each body t ;;
       Return (y :: ys))%js
  end.

Section External.

(** What the functions take from outside the repository: the node's
    [devInspectTransactionBlock], [JSON.stringify] on a response and on
    an execution result, and the three BCS parsers, with [V] the values
    [bcs.de] yields. *)
Variable V : Type.
Variable devInspectTransactionBlock :
  string -> TransactionBlock -> Completion DevInspectResults.
Variable stringify_response : DevInspectResults -> string.
Variable stringify_result : SuiExecutionResult -> string.
Variable bcs_string : list Z -> Completion string.
Variable bcs_vector_string : list Z -> Completion (list string).
Variable bcs_de : string -> list Z -> Completion V.

Inductive Deserialized : Type :=
| OneString (s : string)
| Strings (l : list string)
| Other (v : V).

Definition devInspectAndGetResults (txb : TransactionBlock) (sender : option string)
  : Completion (list SuiExecutionResult) :=
  (await resp <- devInspectTransactionBlock (nullish sender default_sender) txb ;;
   if truthy (resp_error resp) then
     Throw (Error_ ("response error: " ++ stringify_response resp))
   else
     match resp_results resp with
     | None | Some [] =>
         Throw (Error_ ("response has no results: " ++ stringify_response resp))
     | Some results => Return results
     end)%js.

(** The body of the inner loop: one return value deserialized. *)
Definition deserialize (value : ReturnValue) : Completion Deserialized :=
  let valueData := Uint8Array_from (fst value) in
  let valueType := snd value in
  (if String.eqb valueType "0x1::string::String" then
     await s <- bcs_string valueData ;; Return (OneString s)
   else if String.eqb valueType "vector<0x1::string::String>" then
     await l <- bcs_vector_string valueData ;; Return (Strings l)
   else
     await v <- bcs_de valueType valueData ;; Return (Other v))%js.

(** The body of the outer loop: the values of one transaction. *)
Definition transaction_values (txnResult : SuiExecutionResult)
  : Completion (list Deserialized) :=
  match returnValues txnResult with
  | None | Some [] =>
      Throw (Error_ ("transaction didn't return any values: "
                     ++ stringify_result txnResult))
  | Some values => for_each deserialize values
  end.

Definition devInspectAndGetReturnValues (txb : TransactionBlock) (sender : option string)
  : Completion (list (list Deserialized)) :=
  (await results <- devInspectAndGetResults txb sender ;;
   for_each transaction_values results)%js.

End External.

Arguments OneString {V} s.
Arguments Strings {V} l.
Arguments Other {V} v.
Arguments deserialize {V} bcs_string bcs_vector_string bcs_de value.
Arguments transaction_values {V} stringify_result bcs_string bcs_vector_string bcs_de
  txnResult.
Arguments devInspectAndGetReturnValues {V} devInspectTransactionBlock
  stringify_response stringify_result bcs_string bcs_vector_string bcs_de txb sender.

(** A transaction returns at least one value. *)
Definition has_values (r : SuiExecutionResult) : bool :=
  match returnValues r with
  | None | Some [] => false
  | Some _ => true
  end.

(** Stand-ins for the examples: a node that answers with two
    transactions, the first returning a string and a number, the second
    a list of strings; parsers that report the number of bytes. *)
Definition sample_response : DevInspectResults :=
  {| resp_error := Some "";
     resp_results :=
       Some [ mkExecution (Some [([3; 115; 117; 105]%Z, "0x1::string::String");
                                 ([7; 0; 0; 0; 0; 0; 0; 0]%Z, "u64")]);
              mkExecution (Some [([0]%Z, "vector<0x1::string::String>")]) ] |}.

Definition sample_node (sender : string) (txb : TransactionBlock)
  : Completion DevInspectResults := Return sample_response.

Definition sample_string (data : list Z) : Completion string :=
  Return (string_of_nat (List.length data)).
Definition sample_strings (data : list Z) : Completion (list string) := Return [].
Definition sample_de (type : string) (data : list Z) : Completion nat :=
  Return (List.length data).
Definition sample_text {A} (x : A) : string := "{}".

(** The same node with a second transaction that returns nothing. *)
Definition silent_node (sender : string) (txb : TransactionBlock)
  : Completion DevInspectResults :=
  Return {| resp_error := None;
            resp_results :=
              Some [ mkExecution (Some [([0]%Z, "u8")]); mkExecution (Some []) ] |}.

End Inspect.
Import Inspect.

(** * Properties *)

(** ** Address normalisation *)

Section AddressFacts.

Lemma is_zero_true c : is_zero c = true -> c = "0"%char.
Proof. unfold is_zero. apply Ascii.eqb_eq. Qed.

Lemma is_x_true c : is_x c = true -> c = "x"%char.
Proof. unfold is_x. apply Ascii.eqb_eq. Qed.

Lemma skip_zeros_length s : String.length (skip_zeros s) <= String.length s.
Proof.
  induction s as [|c t IH]; simpl; [lia|].
  destruct (is_zero c); simpl; lia.
Qed.

Lemma skip_zeros_head s : head (skip_zeros s) <> Some "0"%char.
Proof.
  induction s as [|c t IH]; simpl; [discriminate|].
  destruct (is_zero c) eqn:Hc; [exact IH|].
  simpl. intros [= ->]. discriminate.
Qed.

Lemma skip_zeros_zeros n s : skip_zeros (zeros n ++ s)%string = skip_zeros s.
Proof. induction n as [|n IH]; simpl; auto. Qed.

Lemma match_0x0plus_length s rest :
  match_0x0plus s = Some rest -> String.length rest < String.length s.
Proof.
  destruct s as [|a [|b [|c t]]]; simpl; try discriminate.
  destruct (is_zero a && is_x b && is_zero c); [|discriminate].
  intros [= <-]. pose proof (skip_zeros_length t). lia.
Qed.

Lemma match_0x0plus_head s rest :
  match_0x0plus s = Some rest -> head s = Some "0"%char /\ head rest <> Some "0"%char.
Proof.
  destruct s as [|a [|b [|c t]]]; simpl; try discriminate.
  destruct (is_zero a) eqn:Ha; simpl; [|discriminate].
  destruct (is_x b && is_zero c); [|discriminate].
  intros [= <-]. split.
  - f_equal. now apply is_zero_true.
  - apply skip_zeros_head.
Qed.

(** The scan never changes the first character. *)
Lemma replaceAll_head n s : head (replaceAll_0x0plus n s) = head s.
Proof.
  destruct n as [|n]; simpl; [reflexivity|].
  destruct (match_0x0plus s) as [rest|] eqn:Hm.
  - apply match_0x0plus_head in Hm as [-> _]. reflexivity.
  - destruct s; reflexivity.
Qed.

(** A text without a match is left alone, whatever the fuel. *)
Lemma replaceAll_clean_id n : forall s, clean s = true -> replaceAll_0x0plus n s = s.
Proof.
  induction n as [|n IH]; intros s Hs; simpl; [reflexivity|].
  destruct s as [|c t]; [reflexivity|].
  cbn [clean] in Hs.
  destruct (match_0x0plus (String c t)); [discriminate|].
  now rewrite IH.
Qed.

(** No match starts at [String a s] when none starts in [String a s']
    and [s], [s'] agree on their first two characters. *)
Lemma match_none_prefix a s s' :
  head s = head s' ->
  (forall b t t', s = String b t -> s' = String b t' -> head t = head t') ->
  match_0x0plus (String a s') = None -> match_0x0plus (String a s) = None.
Proof.
  intros H1 H2.
  destruct s as [|b t], s' as [|b' t']; simpl in H1; try discriminate; auto.
  injection H1 as <-.
  specialize (H2 b t t' eq_refl eq_refl).
  destruct t as [|c u], t' as [|c' u']; simpl in H2; try discriminate; auto.
  injection H2 as <-. simpl.
  destruct (is_zero a && is_x b && is_zero c); [discriminate|auto].
Qed.

(** With enough fuel the result of the scan contains no match. *)
Lemma replaceAll_clean n : forall s,
  String.length s <= n -> clean (replaceAll_0x0plus n s) = true.
Proof.
  induction n as [|n IH]; intros s Hlen.
  - destruct s; [reflexivity|simpl in Hlen; lia].
  - cbn [replaceAll_0x0plus].
    destruct (match_0x0plus s) as [rest|] eqn:Hm.
    + pose proof (match_0x0plus_length _ _ Hm) as Hl.
      apply match_0x0plus_head in Hm as [_ Hrest].
      assert (Hr : clean (replaceAll_0x0plus n rest) = true) by (apply IH; lia).
      pose proof (replaceAll_head n rest) as Hh.
      cbn [clean].
      destruct (replaceAll_0x0plus n rest) as [|c u] eqn:Hout.
      * reflexivity.
      * simpl in Hh.
        assert (Hc : is_zero c = false).
        { destruct (is_zero c) eqn:Hc; [|reflexivity].
          apply is_zero_true in Hc. subst c. now rewrite <- Hh in Hrest. }
        cbn [match_0x0plus]. rewrite Hc, andb_false_r.
        destruct u as [|d v]; [reflexivity|].
        cbn [clean] in Hr |- *.
        destruct (match_0x0plus (String c (String d v))) eqn:Hcd; [discriminate|].
        cbn [match_0x0plus]. destruct v; [exact Hr|].
        unfold is_x at 1. simpl (Ascii.eqb "x" "0"). simpl. exact Hr.
    + destruct s as [|a t]; [reflexivity|].
      simpl in Hlen. cbn [clean].
      rewrite (match_none_prefix a (replaceAll_0x0plus n t) t); [apply IH; lia| | |exact Hm].
      * apply replaceAll_head.
      * intros b u u' Hout Ht. subst t.
        destruct n as [|n]; [simpl in Hlen; lia|].
        cbn [replaceAll_0x0plus] in Hout.
        destruct (match_0x0plus (String b u')) as [rest|] eqn:Hb.
        -- injection Hout as _ <-.
           destruct u' as [|c [|d w]]; try discriminate.
           cbn [match_0x0plus] in Hb.
           destruct (is_x c) eqn:Hx;
             [|rewrite andb_false_r in Hb; discriminate].
           apply is_x_true in Hx. now subst c.
        -- injection Hout as <-. apply replaceAll_head.
Qed.

(** Any fuel that covers the length of the text gives the same scan. *)
Lemma replaceAll_fuel_eq n : forall m s,
  String.length s <= n -> String.length s <= m ->
  replaceAll_0x0plus n s = replaceAll_0x0plus m s.
Proof.
  induction n as [|n IH]; intros m s Hn Hm.
  - destruct s; [|simpl in Hn; lia]. destruct m; reflexivity.
  - destruct m as [|m].
    + destruct s; [reflexivity|simpl in Hm; lia].
    + cbn [replaceAll_0x0plus].
      destruct (match_0x0plus s) as [rest|] eqn:E.
      * apply match_0x0plus_length in E.
        rewrite (IH m rest); [reflexivity|lia|lia].
      * destruct s as [|c t]; [reflexivity|].
        simpl in Hn, Hm. rewrite (IH m t); [reflexivity|lia|lia].
Qed.

Lemma replaceAll_fuel n s :
  String.length s <= n -> replaceAll_0x0plus n s = removeLeadingZeros s.
Proof. intros H. apply replaceAll_fuel_eq; [exact H|lia]. Qed.

Lemma removeLeadingZeros_padded n :
  removeLeadingZeros ("0x" ++ zeros n ++ "2")%string = "0x2".
Proof.
  destruct n as [|n]; [reflexivity|].
  unfold removeLeadingZeros.
  change ("0x" ++ zeros (S n) ++ "2")%string with (String "0" (String "x" (String "0" (zeros n ++ "2")%string))).
  cbn [String.length replaceAll_0x0plus match_0x0plus].
  change (is_zero "0" && is_x "x" && is_zero "0") with true. cbv iota.
  rewrite skip_zeros_zeros.
  destruct n; reflexivity.
Qed.

Lemma removeLeadingZeros_zeros n :
  removeLeadingZeros ("0x" ++ zeros (S n))%string = "0x".
Proof.
  unfold removeLeadingZeros.
  change ("0x" ++ zeros (S n))%string with (String "0" (String "x" (String "0" (zeros n)))).
  cbn [String.length replaceAll_0x0plus match_0x0plus].
  change (is_zero "0" && is_x "x" && is_zero "0") with true. cbv iota.
  replace (skip_zeros (zeros n)) with EmptyString
    by (induction n; simpl; auto).
  destruct n; reflexivity.
Qed.

(** C8: [removeLeadingZeros] turns the padded address of the package
    [0x2] (any number of zero digits before the final 2, in particular
    the 64-digit form) into ["0x2"], leaves ["0x2"] as it is, and is
    idempotent on every string. *)
Theorem removeLeadingZeros_idempotent :
  removeLeadingZeros
    "0x0000000000000000000000000000000000000000000000000000000000000002" = "0x2"
  /\ (forall n, removeLeadingZeros ("0x" ++ zeros n ++ "2")%string = "0x2")
  /\ removeLeadingZeros "0x2" = "0x2"
  /\ (forall x, removeLeadingZeros (removeLeadingZeros x) = removeLeadingZeros x).
Proof.
  split; [reflexivity|].
  split; [exact removeLeadingZeros_padded|].
  split; [reflexivity|].
  intros x. unfold removeLeadingZeros at 1.
  apply replaceAll_clean_id.
  apply replaceAll_clean. lia.
Qed.

(** C10: an address made of the prefix and zero digits only ("0x0", the
    all-zero address) is reduced to the bare prefix ["0x"]: no digit is
    left, so the result is not the input and two such addresses of
    different lengths collapse to the same text. *)
Theorem removeLeadingZeros_all_zero :
  (forall n, removeLeadingZeros ("0x" ++ zeros (S n))%string = "0x")
  /\ removeLeadingZeros "0x0" = "0x"
  /\ removeLeadingZeros
       "0x0000000000000000000000000000000000000000000000000000000000000000" = "0x"
  /\ (forall n, removeLeadingZeros ("0x" ++ zeros (S n))%string <> ("0x" ++ zeros (S n))%string)
  /\ (forall n, String.length (removeLeadingZeros ("0x" ++ zeros (S n))%string) = 2).
Proof.
  split; [exact removeLeadingZeros_zeros|].
  split; [reflexivity|].
  split; [reflexivity|].
  split; intros n; rewrite removeLeadingZeros_zeros; [discriminate|reflexivity].
Qed.

End AddressFacts.

(** ** Latency probing *)

Section ProbeFacts.

Lemma nth_error_mapi_from {A B} (g : nat -> A -> B) (l : list A) : forall start i,
  nth_error (mapi_from start g l) i = option_map (g (start + i)) (nth_error l i).
Proof.
  induction l as [|x t IH]; intros start i.
  - destruct i; reflexivity.
  - destruct i as [|i]; simpl.
    + now rewrite Nat.add_0_r.
    + rewrite IH. now rewrite Nat.add_succ_r.
Qed.

Lemma length_mapi_from {A B} (g : nat -> A -> B) (l : list A) : forall start,
  List.length (mapi_from start g l) = List.length l.
Proof. induction l as [|x t IH]; intros start; simpl; [reflexivity|now rewrite IH]. Qed.

Lemma mapi_from_ext {A B} (g h : nat -> A -> B) (l : list A) : forall start,
  (forall i x, g i x = h i x) -> mapi_from start g l = mapi_from start h l.
Proof.
  induction l as [|x t IH]; intros start E; simpl; [reflexivity|].
  now rewrite E, IH.
Qed.

Lemma map_mapi_from {A B C} (g : nat -> A -> B) (h : B -> C) (l : list A) : forall start,
  map h (mapi_from start g l) = mapi_from start (fun i x => h (g i x)) l.
Proof. induction l as [|x t IH]; intros start; simpl; [reflexivity|now rewrite IH]. Qed.

(** The [try]/[catch] of the callback leaves no way to reject: the
    promise of every probe is fulfilled, with what the network did. *)
Lemma probe_fulfilled net tt oa i u :
  probe net tt oa i u = Return (outcome net (selected_call tt oa) i u).
Proof.
  unfold probe, outcome, try_catch, bind.
  destruct (call net i u (selected_call tt oa)); reflexivity.
Qed.

Lemma testRpcLatency_outcomes req net :
  testRpcLatency req net =
  Return (mapi_from 0
            (outcome net (selected_call (testType req) (objectOrAddress req)))
            (endpoints req)).
Proof.
  unfold testRpcLatency, allSettled. f_equal.
  rewrite !map_mapi_from. apply mapi_from_ext.
  intros i x. now rewrite probe_fulfilled.
Qed.

Lemma outcome_endpoint net c i u : endpoint (outcome net c i u) = u.
Proof. unfold outcome. destruct (call net i u c); reflexivity. Qed.

Lemma toString_nonempty e :
  err_name e <> "" \/ err_message e <> "" -> toString e <> "".
Proof.
  unfold toString. intros Hn.
  destruct (String.eqb (err_name e) "") eqn:E1.
  - apply String.eqb_eq in E1. destruct Hn as [Hn|Hn]; [contradiction|exact Hn].
  - apply String.eqb_neq in E1.
    destruct (String.eqb (err_message e) "") eqn:E2; [exact E1|].
    destruct (err_name e); [contradiction|discriminate].
Qed.

(** [String(err)] is empty only for an error without name and message. *)
Lemma toString_empty e :
  toString e = "" <-> err_name e = "" /\ err_message e = "".
Proof.
  split.
  - intros H.
    destruct (string_dec (err_name e) "") as [Hn|Hn];
      destruct (string_dec (err_message e) "") as [Hm|Hm]; auto;
      exfalso; apply (toString_nonempty e); auto.
  - intros [Hn Hm]. unfold toString. now rewrite Hn, Hm.
Qed.

(** C3: [testRpcLatency] resolves to exactly one result per input
    endpoint: the result list is as long as the endpoint list, the
    result at each position is what the probe launched for that
    position observed, the empty list gives the empty list, and a url
    listed twice is probed twice (here with two different results). *)
Theorem testRpcLatency_one_result_per_endpoint :
  (forall req net, exists rs,
      testRpcLatency req net = Return rs
      /\ List.length rs = List.length (endpoints req)
      /\ forall i,
           nth_error rs i =
           option_map
             (outcome net (selected_call (testType req) (objectOrAddress req)) i)
             (nth_error (endpoints req) i))
  /\ (forall tt oa net, testRpcLatency (mkRequest [] tt oa) net = Return [])
  /\ testRpcLatency twice_request twice_network =
     Return [ {| endpoint := "A"; latency := None; error := Some "Error" |};
              {| endpoint := "A"; latency := Some 7%Q; error := None |} ].
Proof.
  split; [|split].
  - intros req net. eexists. split; [apply testRpcLatency_outcomes|]. split.
    + apply length_mapi_from.
    + intros i. apply (nth_error_mapi_from _ _ 0 i).
  - reflexivity.
  - vm_compute. reflexivity.
Qed.

(** C9: the results of [testRpcLatency] come in the order of the input:
    the endpoint of the result at each position is the endpoint given at
    that position.  On the scenario A, B, C the order is A, B, C. *)
Theorem testRpcLatency_preserves_order :
  (forall req net, exists rs,
      testRpcLatency req net = Return rs
      /\ map endpoint rs = endpoints req
      /\ forall i, option_map endpoint (nth_error rs i) = nth_error (endpoints req) i)
  /\ testRpcLatency abc_request abc_network = Return [result_A; result_B; result_C].
Proof.
  split; [|vm_compute; reflexivity].
  intros req net. eexists. split; [apply testRpcLatency_outcomes|].
  assert (E : forall c l start,
             map endpoint (mapi_from start (outcome net c) l) = l).
  { intros c l. induction l as [|x t IH]; intros start; simpl; [reflexivity|].
    now rewrite outcome_endpoint, IH. }
  split; [apply E|].
  intros i. rewrite <- (E (selected_call (testType req) (objectOrAddress req))
                          (endpoints req) 0) at 2.
  symmetry. apply nth_error_map.
Qed.



End ProbeFacts.

(** ** Sorting on the page *)

Section SortFacts.

Local Open Scope Q_scope.

Lemma compareFn_le a b : Qle_bool (compareFn a b) 0 = true <-> key_le a b.
Proof.
  unfold compareFn, key_le. rewrite Qle_bool_iff. split; intros H; lra.
Qed.

Lemma compareFn_gt a b : Qle_bool (compareFn a b) 0 = false -> key_le b a.
Proof.
  intros H. unfold key_le.
  destruct (Qlt_le_dec (sort_key b) (sort_key a)) as [Hlt|Hle]; [lra|].
  assert (E : Qle_bool (compareFn a b) 0 = true)
    by (apply compareFn_le; exact Hle).
  congruence.
Qed.

Lemma sort_insert_perm {A} (cmp : A -> A -> Q) x l :
  Permutation (x :: l) (sort_insert cmp x l).
Proof.
  induction l as [|y t IH]; simpl; [reflexivity|].
  destruct (Qle_bool (cmp x y) 0); [reflexivity|].
  rewrite perm_swap. now constructor.
Qed.

Lemma Array_sort_perm {A} (cmp : A -> A -> Q) l : Permutation l (Array_sort cmp l).
Proof.
  induction l as [|x t IH]; simpl; [constructor|].
  rewrite <- sort_insert_perm. now constructor.
Qed.

Lemma key_le_trans a b c : key_le a b -> key_le b c -> key_le a c.
Proof. unfold key_le. intros; lra. Qed.

Lemma sort_insert_sorted x l :
  StronglySorted key_le l -> StronglySorted key_le (sort_insert compareFn x l).
Proof.
  induction 1 as [|y t Hs IH Hall]; simpl.
  - repeat constructor.
  - destruct (Qle_bool (compareFn x y) 0) eqn:E.
    + apply compareFn_le in E.
      constructor; [now constructor|].
      constructor; [exact E|].
      eapply Forall_impl; [|exact Hall].
      intros z Hz. now apply key_le_trans with y.
    + apply compareFn_gt in E.
      constructor; [exact IH|].
      eapply Permutation_Forall; [apply sort_insert_perm|].
      now constructor.
Qed.

Lemma Array_sort_sorted l : StronglySorted key_le (Array_sort compareFn l).
Proof.
  induction l as [|x t IH]; simpl; [constructor|].
  now apply sort_insert_sorted.
Qed.

Lemma StronglySorted_nth_error {A} (R : A -> A -> Prop) l :
  StronglySorted R l ->
  forall i j a b, (i < j)%nat ->
    nth_error l i = Some a -> nth_error l j = Some b -> R a b.
Proof.
  induction 1 as [|x t Hs IH Hall]; intros i j a b Hij Ha Hb.
  - destruct i; discriminate.
  - destruct j as [|j]; [lia|]. simpl in Hb.
    destruct i as [|i]; simpl in Ha.
    + injection Ha as <-.
      rewrite Forall_forall in Hall. apply Hall.
      eapply nth_error_In; eassumption.
    + apply (IH i j); [lia|assumption|assumption].
Qed.

(** C1, as the code has it: [testRpcLatency] returns its results in the
    order of the input; the sorted sequence is the one [runTest] stores.
    It is a rearrangement of what [testRpcLatency] returned in which
    latencies ascend, a latency standing before a failure is at most
    99999 and a latency standing after a failure is at least 99999; on
    the scenario A (50 ms), B (fails), C (10 ms) [testRpcLatency] gives
    A, B, C and [runTest] stores C, A, B. *)
Theorem runTest_sorts_results :
  (forall st net, exists rs0 rs,
      testRpcLatency
        {| endpoints := map url (filter enabled (rpcs st));
           testType := None; objectOrAddress := None |} net = Return rs0
      /\ map endpoint rs0 = map url (filter enabled (rpcs st))
      /\ runTest st net = Return {| rpcs := rpcs st; results := rs; isRunning := false |}
      /\ Permutation rs0 rs
      /\ forall i j a b, (i < j)%nat ->
           nth_error rs i = Some a -> nth_error rs j = Some b ->
           match latency a, latency b with
           | Some la, Some lb => la <= lb
           | Some la, None => la <= 99999
           | None, Some lb => 99999 <= lb
           | None, None => True
           end)
  /\ testRpcLatency abc_request abc_network = Return [result_A; result_B; result_C]
  /\ runTest abc_state abc_network =
     Return {| rpcs := rpcs abc_state;
               results := [result_C; result_A; result_B];
               isRunning := false |}.
Proof.
  split; [|split; vm_compute; reflexivity].
  intros st net.
  destruct (testRpcLatency
              {| endpoints := map url (filter enabled (rpcs st));
                 testType := None; objectOrAddress := None |} net)
    as [rs0|e] eqn:E.
  2:{ rewrite testRpcLatency_outcomes in E. discriminate. }
  exists rs0, (Array_sort compareFn rs0).
  split; [reflexivity|].
  split.
  { rewrite testRpcLatency_outcomes in E. injection E as <-.
    cbn [endpoints]. generalize 0%nat.
    induction (map url (filter enabled (rpcs st))) as [|x t IH]; intros k;
      simpl; [reflexivity|].
    now rewrite outcome_endpoint, IH. }
  split.
  { unfold runTest, measureRpcLatency. cbn [rpcs]. rewrite E. reflexivity. }
  split; [apply Array_sort_perm|].
  intros i j a b Hij Ha Hb.
  pose proof (StronglySorted_nth_error key_le _ (Array_sort_sorted rs0)
                i j a b Hij Ha Hb) as H.
  unfold key_le, sort_key, nullish in H.
  destruct (latency a), (latency b); try exact H; try exact I.
Qed.

Lemma runTest_sorts_results_witness :
  (10 <= 50 /\ 50 <= 99999)
  /\ Permutation [result_A; result_B; result_C] [result_C; result_A; result_B].
Proof.
  destruct (proj1 runTest_sorts_results abc_state abc_network)
    as (rs0 & rs & Hprobe & _ & Hrun & Hperm & Hsorted).
  assert (E0 : rs0 = [result_A; result_B; result_C]).
  { vm_compute in Hprobe. injection Hprobe as <-. reflexivity. }
  assert (E : rs = [result_C; result_A; result_B]).
  { vm_compute in Hrun. injection Hrun as <-. reflexivity. }
  subst rs0 rs. split; [split|exact Hperm].
  - exact (Hsorted 0%nat 1%nat result_C result_A (le_n 1) eq_refl eq_refl).
  - exact (Hsorted 1%nat 2%nat result_A result_B (le_n 2) eq_refl eq_refl).
Defined.

(** The claim C1 read on [testRpcLatency] itself fails on the scenario
    of the specification: the results come back as A, B, C, with the
    failure of B before the latency of C and 50 ms before 10 ms. *)
Lemma testRpcLatency_not_sorted :
  exists rs,
    testRpcLatency abc_request abc_network = Return rs
    /\ rs = [result_A; result_B; result_C]
    /\ rs <> [result_C; result_A; result_B]
    /\ ~ sorted_failures_last rs.
Proof.
  exists [result_A; result_B; result_C].
  split; [vm_compute; reflexivity|].
  split; [reflexivity|].
  split; [discriminate|].
  intros H.
  exact (H 1%nat 2%nat result_B result_C (le_n 2) eq_refl eq_refl).
Qed.

(** The key 99999 given to a failure is an ordinary number: a failure
    is stored before an answer that took longer than that. *)
Example runTest_failure_before_slow_answer :
  runTest slow_state slow_network =
  Return {| rpcs := rpcs slow_state;
            results := [ result_B;
                         {| endpoint := "A"; latency := Some 100000;
                            error := None |} ];
            isRunning := false |}.
Proof. vm_compute. reflexivity. Qed.

End SortFacts.

(** ** Coin consolidation *)

Section CoinFacts.

Variable suiClient : SuiClient.
Variables ownerAddress coinType : string.
Variable coinValue : Z.
Variable w : World.

Lemma requests_app tr1 tr2 : requests (tr1 ++ tr2) = requests tr1 ++ requests tr2.
Proof.
  induction tr1 as [|[r|ms|line] t IH]; simpl; [reflexivity| |exact IH|exact IH].
  now rewrite IH.
Qed.

Lemma not_SUI : removeLeadingZeros coinType <> SUI ->
  String.eqb (removeLeadingZeros coinType) SUI = false.
Proof. intros H. now apply String.eqb_neq. Qed.

(** The non-gas path, unfolded: what happens is decided by the answer
    to the one listing request. *)
Lemma getCoinOfValue_listing :
  removeLeadingZeros coinType <> SUI ->
  getCoinOfValue suiClient ownerAddress coinType coinValue w =
  match getCoins suiClient (List.length (requests (trace w))) ownerAddress
          (removeLeadingZeros coinType) None with
  | Throw e => (Throw e, listed ownerAddress coinType w)
  | Return page =>
      match data page with
      | [] => (Throw undefined_read, listed ownerAddress coinType w)
      | firstCoin :: otherCoins =>
          let target := Object (coinObjectId firstCoin) in
          let merge :=
            match otherCoins with
            | [] => []
            | _ :: _ => [MergeCoins target (map coinObjectId otherCoins)]
            end in
          (Return (Result (List.length (txb w ++ merge))),
           {| trace := trace (listed ownerAddress coinType w);
              txb := (txb w ++ merge) ++ [SplitCoins target [Pure coinValue]] |})
      end
  end.
Proof.
  intros H. unfold getCoinOfValue. rewrite (not_SUI H).
  unfold mbind, client_getCoins. fold (listed ownerAddress coinType w).
  destruct (getCoins suiClient _ ownerAddress _ None) as [page|e]; [|reflexivity].
  destruct (data page) as [|firstCoin otherCoins]; [reflexivity|].
  destruct otherCoins as [|c t]; cbn.
  - now rewrite app_nil_r.
  - reflexivity.
Qed.

End CoinFacts.

Section CoinClaims.

(** C4: when the normalised coin type is the gas coin [0x2::sui::SUI],
    [getCoinOfValue] records one split of the requested value from the
    gas input, returns its result, and sends no request: the trace of
    the client is left as it was, whatever the client would answer. *)
Theorem getCoinOfValue_gas_no_lookup
    (suiClient : SuiClient) (ownerAddress coinType : string) (coinValue : Z) (w : World) :
  removeLeadingZeros coinType = SUI ->
  getCoinOfValue suiClient ownerAddress coinType coinValue w =
    (Return (Result (List.length (txb w))),
     {| trace := trace w; txb := txb w ++ [SplitCoins GasCoin [Pure coinValue]] |})
  /\ requests (trace (snd (getCoinOfValue suiClient ownerAddress coinType coinValue w)))
     = requests (trace w).
Proof.
  intros H. unfold getCoinOfValue. rewrite H. simpl. split; reflexivity.
Qed.

Lemma getCoinOfValue_gas_no_lookup_witness :
  getCoinOfValue offline "0xa11ce"
    "0x0000000000000000000000000000000000000000000000000000000000000002::sui::SUI"
    1000 fresh =
    (Return (Result 0),
     {| trace := []; txb := [SplitCoins GasCoin [Pure 1000]] |})
  /\ requests (trace (snd (getCoinOfValue offline "0xa11ce"
       "0x0000000000000000000000000000000000000000000000000000000000000002::sui::SUI"
       1000 fresh))) = [].
Proof.
  apply (getCoinOfValue_gas_no_lookup offline "0xa11ce"
    "0x0000000000000000000000000000000000000000000000000000000000000002::sui::SUI"
    1000 fresh).
  vm_compute. reflexivity.
Defined.

(** C5: on the non-gas path, when the listing returns N >= 1 coins, the
    first coin is the merge target.  The commands recorded are: nothing
    but one split from the target when N = 1; one merge of the other
    N - 1 coins, in their order, into the target and then one split from
    the target when N > 1.  The fragment returned is that split. *)
Theorem getCoinOfValue_merge_then_split
    (suiClient : SuiClient) (ownerAddress coinType : string) (coinValue : Z) (w : World)
    (page : Page CoinStruct) (firstCoin : CoinStruct) (otherCoins : list CoinStruct) :
  removeLeadingZeros coinType <> SUI ->
  getCoins suiClient (List.length (requests (trace w))) ownerAddress
    (removeLeadingZeros coinType) None = Return page ->
  data page = firstCoin :: otherCoins ->
  let target := Object (coinObjectId firstCoin) in
  let split := SplitCoins target [Pure coinValue] in
  exists added,
    getCoinOfValue suiClient ownerAddress coinType coinValue w =
      (Return (Result (List.length (txb w ++ added) - 1)),
       {| trace := trace w ++
                   [Sent (GetCoins ownerAddress (removeLeadingZeros coinType) None)];
          txb := txb w ++ added |})
    /\ (List.length (data page) = 1 -> added = [split])
    /\ (List.length (data page) > 1 ->
          added = [MergeCoins target (map coinObjectId otherCoins); split]
          /\ List.length (map coinObjectId otherCoins) = List.length (data page) - 1)
    /\ List.length (filter is_merge added) = (if Nat.eqb (List.length (data page)) 1 then 0 else 1)
    /\ List.length (filter is_split added) = 1.
Proof.
  intros Hsui Hpage Hdata target split.
  rewrite (getCoinOfValue_listing _ _ _ _ _ Hsui), Hpage, Hdata.
  cbn zeta. fold target. fold split.
  destruct otherCoins as [|c t].
  - exists [split]. rewrite app_nil_r, length_app. simpl.
    replace (List.length (txb w) + 1 - 1) with (List.length (txb w)) by lia.
    repeat split; auto. lia.
  - exists [MergeCoins target (map coinObjectId (c :: t)); split].
    rewrite <- app_assoc. rewrite !length_app. cbn [List.length app].
    replace (List.length (txb w) + 2 - 1) with (List.length (txb w) + 1) by lia.
    split; [reflexivity|].
    split; [intros H; simpl in H; lia|].
    split; [intros _; split; [reflexivity|]|].
    + rewrite length_map. simpl. lia.
    + split; reflexivity.
Qed.

Lemma getCoinOfValue_merge_then_split_witness :
  exists added,
    getCoinOfValue two_pages "0xa11ce" "0x0abc::usd::USD" 10 fresh =
      (Return (Result (List.length (txb fresh ++ added) - 1)),
       {| trace := [Sent (GetCoins "0xa11ce" "0xabc::usd::USD" None)];
          txb := added |})
    /\ (2 = 1 -> added = [SplitCoins (Object "0xc1") [Pure 10]])
    /\ (2 > 1 ->
          added = [MergeCoins (Object "0xc1") ["0xc2"];
                   SplitCoins (Object "0xc1") [Pure 10]]
          /\ 1 = 2 - 1)
    /\ List.length (filter is_merge added) = 1
    /\ List.length (filter is_split added) = 1.
Proof.
  apply (getCoinOfValue_merge_then_split two_pages "0xa11ce" "0x0abc::usd::USD" 10 fresh
           (mkPage [mkCoin "0xc1" 5; mkCoin "0xc2" 6] (Some "p2") true)
           (mkCoin "0xc1" 5) [mkCoin "0xc2" 6]).
  - vm_compute. discriminate.
  - reflexivity.
  - reflexivity.
Defined.

(** C7: on the non-gas path [getCoinOfValue] sends exactly one request,
    a coin listing without cursor, whether the call succeeds or not and
    whatever [hasNextPage] says; its outcome is fixed by the answer to
    that request, so coins of later pages never reach the builder.  On
    a node with coins c1, c2 on a first page that announces a second
    page holding c3, only c2 is merged into c1. *)
Theorem getCoinOfValue_single_page
    (suiClient : SuiClient) (ownerAddress coinType : string) (coinValue : Z) (w : World) :
  removeLeadingZeros coinType <> SUI ->
  let listing := GetCoins ownerAddress (removeLeadingZeros coinType) None in
  requests (trace (snd (getCoinOfValue suiClient ownerAddress coinType coinValue w)))
    = requests (trace w) ++ [listing]
  /\ (forall other : SuiClient,
        getCoins other (List.length (requests (trace w))) ownerAddress
          (removeLeadingZeros coinType) None
        = getCoins suiClient (List.length (requests (trace w))) ownerAddress
            (removeLeadingZeros coinType) None ->
        getCoinOfValue other ownerAddress coinType coinValue w
        = getCoinOfValue suiClient ownerAddress coinType coinValue w)
  /\ getCoinOfValue two_pages "0xa11ce" "0x0abc::usd::USD" 10 fresh =
       (Return (Result 1),
        {| trace := [Sent (GetCoins "0xa11ce" "0xabc::usd::USD" None)];
           txb := [MergeCoins (Object "0xc1") ["0xc2"];
                   SplitCoins (Object "0xc1") [Pure 10]] |}).
Proof.
  intros Hsui listing. split; [|split].
  - rewrite (getCoinOfValue_listing _ _ _ _ _ Hsui).
    destruct (getCoins suiClient _ ownerAddress _ None) as [page|e].
    + destruct (data page) as [|c t]; cbn [snd trace listed];
        rewrite requests_app; reflexivity.
    + cbn [snd trace listed]. rewrite requests_app. reflexivity.
  - intros other E.
    rewrite !(getCoinOfValue_listing _ _ _ _ _ Hsui), E. reflexivity.
  - vm_compute. reflexivity.
Qed.

Lemma getCoinOfValue_single_page_witness :
  requests (trace (snd (getCoinOfValue two_pages "0xa11ce" "0x0abc::usd::USD" 10 fresh)))
    = [GetCoins "0xa11ce" "0xabc::usd::USD" None].
Proof.
  apply (getCoinOfValue_single_page two_pages "0xa11ce" "0x0abc::usd::USD" 10 fresh).
  vm_compute. discriminate.
Defined.

End CoinClaims.

(** ** Paginated listing *)

Section FieldFacts.

Variable suiClient : SuiClient.
Variable parentId : string.
Variable sleepBetweenRequests : Z.
Variable verbose : bool.

Lemma requests_logged tr pageNumber :
  requests (if verbose
            then tr ++ [Logged ("Fetching page " ++ string_of_nat pageNumber)]
            else tr) = requests tr.
Proof.
  destruct verbose; [|reflexivity].
  rewrite requests_app. simpl. apply app_nil_r.
Qed.

Lemma requests_slept tr :
  requests (if (0 <? sleepBetweenRequests)%Z then tr ++ [Slept sleepBetweenRequests]
            else tr) = requests tr.
Proof.
  destruct (0 <? sleepBetweenRequests)%Z; [|reflexivity].
  rewrite requests_app. simpl. apply app_nil_r.
Qed.

(** The loop, entered with a further page announced, on a node that
    serves [pages] from the current request number and cursor on. *)
Lemma fetch_loop_serves k cursor pages :
  serves suiClient parentId k cursor pages ->
  forall fuel acc pageNumber tr,
    List.length (requests tr) = k ->
    List.length pages <= fuel ->
    exists tr',
      fetch_loop suiClient parentId sleepBetweenRequests verbose fuel
        acc true cursor pageNumber tr
      = Some (Return (acc ++ List.concat (map data pages)), tr')
      /\ requests tr' = requests tr ++ page_requests parentId cursor pages.
Proof.
  induction 1 as [k cursor p Hget Hlast | k cursor p ps Hget Hmore Hrest IH];
    intros fuel acc pageNumber tr Hk Hfuel;
    (destruct fuel as [|fuel]; [simpl in Hfuel; lia|]);
    cbn [fetch_loop negb]; rewrite requests_logged, Hk, Hget.
  - rewrite Hlast. destruct fuel; cbn [fetch_loop negb];
      (eexists; split; [cbn [map List.concat]; rewrite app_nil_r; reflexivity|]);
      rewrite requests_slept, requests_app, requests_logged; reflexivity.
  - rewrite Hmore.
    edestruct (IH fuel (acc ++ data p) (S pageNumber)) as (tr' & Hrun & Hreq);
      [ | | rewrite Hrun ].
    + rewrite requests_slept, requests_app, requests_logged, length_app, Hk.
      simpl. lia.
    + simpl in Hfuel. lia.
    + eexists. split; [cbn [map List.concat]; now rewrite app_assoc|].
      rewrite Hreq, requests_slept, requests_app, requests_logged.
      simpl. now rewrite <- app_assoc.
Qed.

End FieldFacts.

Section FieldClaims.

(** C6: on a node that serves the pages [pages] (a further page
    announced with each page but the last), [fetchAllDynamicFields],
    given fuel for that many turns, returns the items of all pages in
    page order; it sends one request per page and no more, the first
    without cursor and each next one with the cursor of the page before.
    On three pages of sizes 2, 2, 1 it returns the five items in order
    after three requests. *)
Theorem fetchAllDynamicFields_concatenates :
  (forall (suiClient : SuiClient) (parentId : string) (sleepBetweenRequests : Z)
          (verbose : bool) (fuel : nat) (tr : Trace)
          (pages : list (Page DynamicFieldInfo)),
      serves suiClient parentId (List.length (requests tr)) None pages ->
      List.length pages <= fuel ->
      exists tr',
        fetchAllDynamicFields suiClient parentId sleepBetweenRequests verbose fuel tr
        = Some (Return (List.concat (map data pages)), tr')
        /\ requests tr' = requests tr ++ page_requests parentId None pages
        /\ List.length (requests tr') = List.length (requests tr) + List.length pages)
  /\ fetchAllDynamicFields (scripted three_pages) "0xparent" 333 false 3 []
     = Some (Return [f 1; f 2; f 3; f 4; f 5],
             [ Sent (GetDynamicFields "0xparent" None); Slept 333;
               Sent (GetDynamicFields "0xparent" (Some "c1")); Slept 333;
               Sent (GetDynamicFields "0xparent" (Some "c2")); Slept 333 ]).
Proof.
  split; [|vm_compute; reflexivity].
  intros suiClient parentId sleepBetweenRequests verbose fuel tr pages Hs Hfuel.
  destruct (fetch_loop_serves suiClient parentId sleepBetweenRequests verbose
              _ _ _ Hs fuel [] 1 tr eq_refl Hfuel) as (tr' & Hrun & Hreq).
  exists tr'. split; [exact Hrun|]. split; [exact Hreq|].
  rewrite Hreq, length_app. f_equal.
  clear. generalize (@None string).
  induction pages as [|p ps IH]; intros c; simpl; [reflexivity|now rewrite IH].
Qed.

Lemma fetchAllDynamicFields_concatenates_witness :
  exists tr',
    fetchAllDynamicFields (scripted three_pages) "0xparent" 0 true 5 []
    = Some (Return [f 1; f 2; f 3; f 4; f 5], tr')
    /\ requests tr' =
       [ GetDynamicFields "0xparent" None;
         GetDynamicFields "0xparent" (Some "c1");
         GetDynamicFields "0xparent" (Some "c2") ]
    /\ List.length (requests tr') = 3.
Proof.
  apply (proj1 fetchAllDynamicFields_concatenates
           (scripted three_pages) "0xparent" 0%Z true 5 [] three_pages).
  - apply serves_more; [reflexivity|reflexivity|].
    apply serves_more; [reflexivity|reflexivity|].
    apply serves_last; reflexivity.
  - simpl. lia.
Defined.

End FieldClaims.

(** ** Chunks and ranges *)

Section MiscFacts.

Local Open Scope Z_scope.

Lemma Array_slice_window {A} (array : list A) i n :
  0 <= i -> 0 <= n ->
  Array_slice array i (i + n) = firstn (Z.to_nat n) (skipn (Z.to_nat i) array).
Proof.
  intros Hi Hn. unfold Array_slice, relative_index.
  set (len := Z.of_nat (List.length array)).
  assert (0 <= len) by (unfold len; lia).
  destruct (i <? 0) eqn:E1; [apply Z.ltb_lt in E1; lia|].
  destruct (i + n <? 0) eqn:E2; [apply Z.ltb_lt in E2; lia|].
  destruct (Z.le_gt_cases len i) as [Hle|Hgt].
  - rewrite (Z.min_r i len) by lia.
    rewrite (Z.min_r (i + n) len) by lia.
    rewrite !skipn_all2 by (unfold len in *; lia).
    now rewrite !firstn_nil.
  - rewrite (Z.min_l i len) by lia.
    destruct (Z.le_gt_cases (i + n) len) as [Hle'|Hgt'].
    + rewrite (Z.min_l (i + n) len) by lia. do 2 f_equal. lia.
    + rewrite (Z.min_r (i + n) len) by lia.
      rewrite !firstn_all2; [reflexivity| |]; rewrite length_skipn;
        unfold len in *; lia.
Qed.

Lemma all_but_last_cons {A} (P : A -> Prop) x l :
  (l <> [] -> P x) -> all_but_last P l -> all_but_last P (x :: l).
Proof.
  intros Hx Hl. destruct l as [|y t]; [exact I|].
  split; [apply Hx; discriminate|exact Hl].
Qed.

Lemma chunk_count_step n size :
  1 <= size -> 0 < n ->
  chunk_count n size = 1 + chunk_count (Z.max (n - size) 0) size.
Proof.
  intros Hs Hn. unfold chunk_count.
  destruct (Z.le_gt_cases size n) as [Hle|Hgt].
  - rewrite Z.max_l by lia.
    replace (n + size - 1) with ((n - size + size - 1) + 1 * size) by lia.
    rewrite Z.div_add by lia. lia.
  - rewrite Z.max_r by lia.
    rewrite (Z.div_small (0 + size - 1) size) by lia.
    symmetry. apply Z.div_unique with (r := n - 1); lia.
Qed.

(** The loop of [chunkArray] from counter [i] on. *)
Lemma chunk_loop_spec {A} (array : list A) size : 1 <= size ->
  forall fuel i acc,
    0 <= i ->
    Z.of_nat (List.length array) - i <= Z.of_nat fuel ->
    exists rest,
      chunk_loop fuel array size i acc = Some (acc ++ rest)
      /\ List.concat rest = skipn (Z.to_nat i) array
      /\ Forall (fun c => 1 <= Z.of_nat (List.length c) <= size) rest
      /\ all_but_last (fun c => Z.of_nat (List.length c) = size) rest
      /\ Z.of_nat (List.length rest)
         = chunk_count (Z.max (Z.of_nat (List.length array) - i) 0) size.
Proof.
  intros Hs. set (len := Z.of_nat (List.length array)).
  induction fuel as [|fuel IH]; intros i acc Hi Hfuel.
  - exists []. cbn [chunk_loop]. fold len.
    destruct (i <? len) eqn:E; [apply Z.ltb_lt in E; lia|].
    apply Z.ltb_ge in E. rewrite app_nil_r.
    split; [reflexivity|]. split.
    { rewrite skipn_all2; [reflexivity|unfold len in *; lia]. }
    split; [constructor|]. split; [exact I|].
    rewrite Z.max_r by lia. unfold chunk_count.
    rewrite Z.div_small; simpl; lia.
  - cbn [chunk_loop]. fold len.
    destruct (i <? len) eqn:E.
    + apply Z.ltb_lt in E.
      destruct (IH (i + size) (acc ++ [Array_slice array i (i + size)]))
        as (rest & Hrun & Hcat & Hall & Hfull & Hcount); [lia|nia|].
      exists (Array_slice array i (i + size) :: rest).
      rewrite Hrun, <- app_assoc. split; [reflexivity|].
      rewrite Array_slice_window in * by lia.
      assert (Hlen : Z.of_nat (List.length (firstn (Z.to_nat size) (skipn (Z.to_nat i) array)))
                     = Z.min size (len - i)).
      { rewrite length_firstn, length_skipn. unfold len. lia. }
      split.
      { cbn [List.concat]. rewrite Hcat.
        replace (Z.to_nat (i + size)) with (Z.to_nat size + Z.to_nat i)%nat by lia.
        rewrite <- skipn_skipn. apply firstn_skipn. }
      split; [constructor; [lia|exact Hall]|].
      split.
      { apply all_but_last_cons; [|exact Hfull].
        intros Hne. rewrite Hlen.
        destruct (Z.le_gt_cases len (i + size)) as [Hend|Hmore]; [|lia].
        exfalso. apply Hne. apply length_zero_iff_nil.
        rewrite Z.max_r in Hcount by lia. unfold chunk_count in Hcount.
        rewrite Z.div_small in Hcount by lia. lia. }
      cbn [List.length]. rewrite Nat2Z.inj_succ, Hcount.
      rewrite (Z.max_l (len - i) 0) by lia.
      rewrite (chunk_count_step (len - i) size) by lia.
      replace (len - (i + size)) with (len - i - size) by lia. lia.
    + apply Z.ltb_ge in E. exists []. rewrite app_nil_r.
      split; [reflexivity|]. split.
      { rewrite skipn_all2; [reflexivity|unfold len in *; lia]. }
      split; [constructor|]. split; [exact I|].
      rewrite Z.max_r by lia. unfold chunk_count.
      rewrite Z.div_small; simpl; lia.
Qed.

(** [chunkArray] with a chunk size of at least 1 and fuel for one turn
    per element returns chunks that joined give back the array; every
    chunk holds between 1 and [chunkSize] elements, every chunk but the
    last exactly [chunkSize], and there are ceil(length / chunkSize) of
    them. *)
Theorem chunkArray_partitions {A} (array : list A) (chunkSize : Z) (fuel : nat) :
  1 <= chunkSize ->
  (List.length array <= fuel)%nat ->
  exists chunks,
    chunkArray fuel array chunkSize = Some chunks
    /\ List.concat chunks = array
    /\ Forall (fun c => 1 <= Z.of_nat (List.length c) <= chunkSize) chunks
    /\ all_but_last (fun c => Z.of_nat (List.length c) = chunkSize) chunks
    /\ Z.of_nat (List.length chunks)
       = chunk_count (Z.of_nat (List.length array)) chunkSize.
Proof.
  intros Hs Hfuel.
  destruct (chunk_loop_spec array chunkSize Hs fuel 0 []) as (rest & H1 & H2 & H3 & H4 & H5);
    [lia|lia|].
  exists rest. split; [exact H1|]. split; [exact H2|].
  split; [exact H3|]. split; [exact H4|].
  rewrite H5, Z.sub_0_r, Z.max_l by lia. reflexivity.
Qed.

Lemma chunkArray_partitions_witness :
  exists chunks,
    chunkArray 5 [1; 2; 3; 4; 5] 2 = Some chunks
    /\ List.concat chunks = [1; 2; 3; 4; 5]
    /\ Forall (fun c => 1 <= Z.of_nat (List.length c) <= 2) chunks
    /\ all_but_last (fun c => Z.of_nat (List.length c) = 2) chunks
    /\ Z.of_nat (List.length chunks) = chunk_count 5 2.
Proof.
  apply (chunkArray_partitions [1; 2; 3; 4; 5] 2 5); [lia|simpl; lia].
Defined.

(** [chunkArray] with a chunk size of 0 or less never returns on a
    non-empty array: the loop condition holds at every turn, whatever the
    fuel.  On the empty array it returns no chunk, whatever the size. *)
Theorem chunkArray_nonpositive_size {A} (array : list A) (chunkSize : Z) :
  chunkSize <= 0 ->
  (array <> [] -> forall fuel, chunkArray fuel array chunkSize = None)
  /\ (forall fuel, chunkArray fuel (@nil A) chunkSize = Some []).
Proof.
  intros Hs. split.
  - intros Hne fuel. unfold chunkArray.
    assert (Hlen : 0 < Z.of_nat (List.length array)).
    { destruct array; [contradiction|simpl; lia]. }
    assert (G : forall i acc, i <= 0 -> chunk_loop fuel array chunkSize i acc = None).
    { induction fuel as [|fuel IH]; intros i acc Hi; cbn [chunk_loop];
        (destruct (i <? Z.of_nat (List.length array)) eqn:E;
          [|apply Z.ltb_ge in E; lia]); [reflexivity|].
      apply IH. lia. }
    apply G. lia.
  - intros fuel. destruct fuel; reflexivity.
Qed.

Lemma chunkArray_nonpositive_size_witness :
  chunkArray 1000 [1; 2; 3] 0 = None /\ chunkArray 1000 (@nil Z) 0 = Some [].
Proof.
  destruct (chunkArray_nonpositive_size [1; 2; 3] 0) as [Hloop Hnil]; [lia|].
  split; [apply Hloop; discriminate|apply Hnil].
Defined.

End MiscFacts.

Section RangeFacts.

Local Open Scope Z_scope.




(** The example of the documentation. *)
Example makeRanges_example :
  makeRanges 3 0 678 250 = Some [(0, 250); (250, 500); (500, 678)].
Proof. reflexivity. Qed.

(** [makeRanges] with a size of 0 or less never returns when [from] is
    below [to]. *)
Theorem makeRanges_nonpositive_size (from to size : Z) :
  size <= 0 -> from < to -> forall fuel, makeRanges fuel from to size = None.
Proof.
  intros Hs Hlt fuel. unfold makeRanges.
  assert (G : forall start acc, start < to -> range_loop fuel to size start acc = None).
  { induction fuel as [|fuel IH]; intros start acc Hstart; cbn [range_loop];
      (destruct (start <? to) eqn:E; [|apply Z.ltb_ge in E; lia]); [reflexivity|].
    apply IH. lia. }
  now apply G.
Qed.

Lemma makeRanges_nonpositive_size_witness :
  makeRanges 1000 0 10 0 = None.
Proof.
  apply (makeRanges_nonpositive_size 0 10 0); lia.
Defined.

End RangeFacts.

(** ** More on address normalisation *)

Section AddressMore.

Lemma skip_zeros_nonzero s : nonzero_chars (skip_zeros s) = nonzero_chars s.
Proof.
  induction s as [|c t IH]; [reflexivity|]. simpl.
  destruct (is_zero c) eqn:E; [exact IH|]. simpl. now rewrite E.
Qed.

Lemma match_0x0plus_nonzero s rest :
  match_0x0plus s = Some rest ->
  nonzero_chars s = "x"%char :: nonzero_chars rest
  /\ String.length rest + 3 <= String.length s.
Proof.
  destruct s as [|a [|b [|c t]]]; simpl; try discriminate.
  destruct (is_zero a) eqn:Ha; simpl; [|discriminate].
  destruct (is_x b) eqn:Hb; simpl; [|discriminate].
  destruct (is_zero c) eqn:Hc; simpl; [|discriminate].
  intros [= <-]. apply is_x_true in Hb. subst b.
  rewrite skip_zeros_nonzero. split; [reflexivity|].
  pose proof (skip_zeros_length t). lia.
Qed.

Lemma replaceAll_only_zeros n : forall s,
  nonzero_chars (replaceAll_0x0plus n s) = nonzero_chars s
  /\ String.length (replaceAll_0x0plus n s) <= String.length s.
Proof.
  induction n as [|n IH]; intros s; cbn [replaceAll_0x0plus]; [split; auto|].
  destruct (match_0x0plus s) as [rest|] eqn:Hm.
  - apply match_0x0plus_nonzero in Hm as [-> Hlen].
    destruct (IH rest) as [E L]. cbn. rewrite E. split; [reflexivity|lia].
  - destruct s as [|c t]; [split; auto|].
    destruct (IH t) as [E L]. cbn. rewrite E. split; [reflexivity|lia].
Qed.

Lemma replaceAll_match n s rest :
  match_0x0plus s = Some rest ->
  replaceAll_0x0plus (S n) s = String "0" (String "x" (replaceAll_0x0plus n rest)).
Proof. intros H. cbn [replaceAll_0x0plus]. now rewrite H. Qed.

Lemma replaceAll_copy n c t :
  match_0x0plus (String c t) = None ->
  replaceAll_0x0plus (S n) (String c t) = String c (replaceAll_0x0plus n t).
Proof. intros H. cbn [replaceAll_0x0plus]. now rewrite H. Qed.

(** [removeLeadingZeros] deletes zero digits and nothing else: the other
    characters of the result are those of the input, in the same order,
    and the result is never longer than the input. *)
Theorem removeLeadingZeros_only_zeros (address : string) :
  nonzero_chars (removeLeadingZeros address) = nonzero_chars address
  /\ String.length (removeLeadingZeros address) <= String.length address.
Proof. apply replaceAll_only_zeros. Qed.

(** [removeLeadingZeros] leaves a text as it is exactly when no position
    of the text starts a match of [/0x0+/]. *)
Theorem removeLeadingZeros_fixed_points (address : string) :
  removeLeadingZeros address = address <-> clean address = true.
Proof.
  split.
  - intros E. rewrite <- E. apply replaceAll_clean. lia.
  - apply replaceAll_clean_id.
Qed.

Lemma removeLeadingZeros_zeros_then (n : nat) (rest : string) :
  head rest <> Some "0"%char ->
  removeLeadingZeros ("0x" ++ zeros n ++ rest)%string
  = ("0x" ++ removeLeadingZeros rest)%string.
Proof.
  intros Hrest.
  assert (Hskip : skip_zeros rest = rest).
  { destruct rest as [|c t]; [reflexivity|]. simpl.
    destruct (is_zero c) eqn:E; [|reflexivity].
    apply is_zero_true in E. subst c. now elim Hrest. }
  destruct n as [|n].
  - unfold removeLeadingZeros.
    change ("0x" ++ zeros 0 ++ rest)%string with (String "0" (String "x" rest)).
    change (String.length (String "0" (String "x" rest)))
      with (S (S (String.length rest))).
    assert (Hm : match_0x0plus (String "0" (String "x" rest)) = None).
    { destruct rest as [|c t]; [reflexivity|]. cbn [match_0x0plus].
      destruct (is_zero c) eqn:E; [|now rewrite andb_false_r].
      apply is_zero_true in E. subst c. now elim Hrest. }
    assert (Hx : match_0x0plus (String "x" rest) = None)
      by (destruct rest as [|c [|d t]]; reflexivity).
    rewrite (replaceAll_copy _ _ _ Hm), (replaceAll_copy _ _ _ Hx).
    reflexivity.
  - unfold removeLeadingZeros at 1.
    change ("0x" ++ zeros (S n) ++ rest)%string
      with (String "0" (String "x" (String "0" (zeros n ++ rest)%string))).
    change (String.length (String "0" (String "x" (String "0" (zeros n ++ rest)%string))))
      with (S (S (S (String.length (zeros n ++ rest)%string)))).
    rewrite (replaceAll_match _ _ rest).
    + rewrite replaceAll_fuel; [reflexivity|].
      clear. induction n as [|n IH]; simpl in *; lia.
    + cbn [match_0x0plus].
      change (is_zero "0" && is_x "x" && is_zero "0") with true. cbv iota.
      now rewrite skip_zeros_zeros, Hskip.
Qed.

(** The zero digits that follow a leading ["0x"] go, whatever text comes
    behind them, and that text is normalised on its own. *)
Theorem removeLeadingZeros_prefix (n : nat) (rest : string) :
  head rest <> Some "0"%char ->
  removeLeadingZeros ("0x" ++ zeros n ++ rest)%string
  = ("0x" ++ removeLeadingZeros rest)%string.
Proof. apply removeLeadingZeros_zeros_then. Qed.

Lemma removeLeadingZeros_prefix_witness :
  removeLeadingZeros ("0x" ++ zeros 5 ++ "2::sui::SUI")%string
  = ("0x" ++ removeLeadingZeros "2::sui::SUI")%string.
Proof.
  apply (removeLeadingZeros_prefix 5 "2::sui::SUI"). simpl. discriminate.
Defined.

End AddressMore.

(** ** More on latency probing and the page *)

Section ProbeMore.

Lemma Forall_mapi_from {A B} (P : B -> Prop) (g : nat -> A -> B) (l : list A) :
  (forall i x, In x l -> P (g i x)) -> forall start, Forall P (mapi_from start g l).
Proof.
  induction l as [|x t IH]; intros H start; simpl; constructor.
  - apply H. now left.
  - apply IH. intros i y Hy. apply H. now right.
Qed.

(** Every result of [testRpcLatency] carries either a latency and no
    error, or an error and no latency. *)
Theorem testRpcLatency_one_outcome (req : ProbeRequest) (net : Network) :
  exists rs, testRpcLatency req net = Return rs /\ Forall one_outcome rs.
Proof.
  eexists. split; [apply testRpcLatency_outcomes|].
  apply Forall_mapi_from. intros i u _. unfold one_outcome, outcome.
  destruct (call net i u _); [left|right]; eexists; split; reflexivity.
Qed.

(** When the clock does not run backwards between the two readings of a
    probe, no latency reported by [testRpcLatency] is negative. *)
Theorem testRpcLatency_latency_nonnegative (req : ProbeRequest) (net : Network) :
  (forall i u c now, call net i u c = Return now -> (now_before net i <= now)%Q) ->
  exists rs,
    testRpcLatency req net = Return rs
    /\ Forall (fun r => forall l, latency r = Some l -> (0 <= l)%Q) rs.
Proof.
  intros Hclock. eexists. split; [apply testRpcLatency_outcomes|].
  apply Forall_mapi_from. intros i u _ l. unfold outcome.
  destruct (call net i u _) as [now|e] eqn:E; [|discriminate].
  intros [= <-]. apply Hclock in E. lra.
Qed.

Lemma testRpcLatency_latency_nonnegative_witness :
  exists rs,
    testRpcLatency abc_request abc_network = Return rs
    /\ Forall (fun r => forall l, latency r = Some l -> (0 <= l)%Q) rs.
Proof.
  apply (testRpcLatency_latency_nonnegative abc_request abc_network).
  intros i u c now. cbn [call abc_network now_before].
  destruct (String.eqb u "A"); [intros [= <-]; discriminate|].
  destruct (String.eqb u "C"); [intros [= <-]; discriminate|].
  discriminate.
Defined.


Lemma toggle_toggle u l : toggle u (toggle u l) = l.
Proof.
  unfold toggle. rewrite map_map. rewrite <- (map_id l) at 2.
  apply map_ext. intros [v b]. cbn [url enabled].
  destruct (String.eqb v u) eqn:E; cbn [negb url enabled]; [|now rewrite E].
  rewrite E. cbn [negb]. now rewrite negb_involutive.
Qed.

(** [onRpcCheckboxChange] touches nothing but the check marks of the
    entries with the given url: the urls and their order, the stored
    results and the running flag stay, every entry with another url
    stays, and toggling the same url twice gives the state back. *)
Theorem onRpcCheckboxChange_involutive (u : string) (st : State) :
  onRpcCheckboxChange u (onRpcCheckboxChange u st) = st
  /\ map url (rpcs (onRpcCheckboxChange u st)) = map url (rpcs st)
  /\ results (onRpcCheckboxChange u st) = results st
  /\ isRunning (onRpcCheckboxChange u st) = isRunning st
  /\ (forall i rpc, nth_error (rpcs st) i = Some rpc ->
        nth_error (rpcs (onRpcCheckboxChange u st)) i
        = Some (if String.eqb (url rpc) u
                then {| url := url rpc; enabled := negb (enabled rpc) |}
                else rpc)).
Proof.
  split; [|split; [|split; [|split]]].
  - destruct st as [l r b]. unfold onRpcCheckboxChange.
    cbn [rpcs results isRunning]. now rewrite toggle_toggle.
  - cbn. unfold toggle. rewrite map_map. apply map_ext.
    intros rpc. now destruct (String.eqb (url rpc) u).
  - reflexivity.
  - reflexivity.
  - intros i rpc H. cbn. unfold toggle. rewrite nth_error_map, H. cbn.
    now destruct (String.eqb (url rpc) u).
Qed.

(** Unchecking an endpoint on a page where every endpoint is checked
    makes [runTest] probe exactly the other urls, in their order. *)
Theorem onRpcCheckboxChange_excludes (u : string) (st : State) :
  Forall (fun rpc => enabled rpc = true) (rpcs st) ->
  map url (filter enabled (rpcs (onRpcCheckboxChange u st)))
  = filter (fun v => negb (String.eqb v u)) (map url (rpcs st)).
Proof.
  unfold onRpcCheckboxChange, toggle. cbn [rpcs].
  induction 1 as [|[v b] l Hb _ IH]; [reflexivity|].
  cbn [enabled] in Hb. subst b. cbn [map filter url enabled].
  destruct (String.eqb v u); cbn [negb enabled url filter map]; now rewrite IH.
Qed.

Lemma onRpcCheckboxChange_excludes_witness :
  map url (filter enabled (rpcs (onRpcCheckboxChange "B" abc_state)))
  = filter (fun v => negb (String.eqb v "B")) (map url (rpcs abc_state)).
Proof.
  apply (onRpcCheckboxChange_excludes "B" abc_state).
  repeat constructor.
Defined.

End ProbeMore.

(** ** More on coin consolidation *)

Section CoinMore.

Variable suiClient : SuiClient.
Variables ownerAddress coinType : string.
Variable coinValue : Z.
Variable w : World.


(** When [getCoinOfValue] returns a fragment, the fragment names the
    command recorded last, and that command is a split of exactly the
    requested value; the commands recorded before the call are kept in
    front, followed by one or two new ones. *)
Theorem getCoinOfValue_returns_split (k : nat) (w' : World) :
  getCoinOfValue suiClient ownerAddress coinType coinValue w = (Return (Result k), w') ->
  exists added coin,
    txb w' = txb w ++ added
    /\ 1 <= List.length added <= 2
    /\ S k = List.length (txb w')
    /\ nth_error (txb w') k = Some (SplitCoins coin [Pure coinValue]).
Proof.
  intros H.
  destruct (string_dec (removeLeadingZeros coinType) SUI) as [Hsui|Hsui].
  - unfold getCoinOfValue in H. rewrite Hsui in H. cbn in H.
    injection H as <- <-. exists [SplitCoins GasCoin [Pure coinValue]], GasCoin.
    cbn [txb]. rewrite length_app. cbn [List.length].
    repeat split; try lia.
    rewrite nth_error_app2, Nat.sub_diag by lia. reflexivity.
  - rewrite (getCoinOfValue_listing _ _ _ _ _ Hsui) in H.
    destruct (getCoins suiClient _ ownerAddress _ None) as [page|e0]; [|discriminate].
    destruct (data page) as [|c t]; [discriminate|].
    cbn zeta in H. injection H as <- <-.
    set (target := Object (coinObjectId c)).
    set (merge := match t with
                  | [] => []
                  | _ :: _ => [MergeCoins target (map coinObjectId t)]
                  end).
    exists (merge ++ [SplitCoins target [Pure coinValue]]), target.
    cbn [txb]. rewrite <- app_assoc. split; [reflexivity|].
    rewrite !length_app. cbn [List.length].
    assert (Hm : List.length merge <= 1) by (unfold merge; destruct t; simpl; lia).
    repeat split; try lia.
    rewrite app_assoc, nth_error_app2 by (rewrite length_app; lia).
    rewrite length_app, Nat.sub_diag. reflexivity.
Qed.

End CoinMore.

Section CoinPadding.


Lemma getCoinOfValue_returns_split_witness :
  exists added coin,
    [MergeCoins (Object "0xc1") ["0xc2"]; SplitCoins (Object "0xc1") [Pure 10]]
    = txb fresh ++ added
    /\ 1 <= List.length added <= 2
    /\ 2 = 2
    /\ Some (SplitCoins (Object "0xc1") [Pure 10]) = Some (SplitCoins coin [Pure 10]).
Proof.
  apply (getCoinOfValue_returns_split two_pages "0xa11ce" "0x0abc::usd::USD" 10 fresh 1
           {| trace := [Sent (GetCoins "0xa11ce" "0xabc::usd::USD" None)];
              txb := [MergeCoins (Object "0xc1") ["0xc2"];
                      SplitCoins (Object "0xc1") [Pure 10]] |}).
  vm_compute. reflexivity.
Defined.

(** Every spelling of the gas coin type with zero digits before the 2 of
    its address takes the gas path: one split from the gas input, no
    request. *)
Theorem getCoinOfValue_padded_SUI
    (n : nat) (suiClient : SuiClient) (ownerAddress : string) (coinValue : Z) (w : World) :
  getCoinOfValue suiClient ownerAddress ("0x" ++ zeros n ++ "2::sui::SUI")%string
    coinValue w
  = (Return (Result (List.length (txb w))),
     {| trace := trace w; txb := txb w ++ [SplitCoins GasCoin [Pure coinValue]] |}).
Proof.
  unfold getCoinOfValue.
  rewrite removeLeadingZeros_zeros_then by (simpl; discriminate).
  reflexivity.
Qed.

End CoinPadding.

(** ** More on paginated listing *)

Section FieldMore.

Variable suiClient : SuiClient.
Variable parentId : string.
Variable sleepBetweenRequests : Z.
Variable verbose : bool.

Lemma requests_step tr pageNumber cursor :
  requests
    (if (0 <? sleepBetweenRequests)%Z
     then ((if verbose
            then tr ++ [Logged ("Fetching page " ++ string_of_nat pageNumber)]
            else tr) ++ [Sent (GetDynamicFields parentId cursor)])
          ++ [Slept sleepBetweenRequests]
     else (if verbose
           then tr ++ [Logged ("Fetching page " ++ string_of_nat pageNumber)]
           else tr) ++ [Sent (GetDynamicFields parentId cursor)])
  = requests tr ++ [GetDynamicFields parentId cursor].
Proof.
  destruct (0 <? sleepBetweenRequests)%Z, verbose;
    rewrite ?requests_app; simpl; rewrite ?app_nil_r; reflexivity.
Qed.

Lemma fetch_loop_fails k cursor pages e :
  fails_after suiClient parentId k cursor pages e ->
  forall fuel acc pageNumber tr,
    List.length (requests tr) = k ->
    List.length pages < fuel ->
    exists tr',
      fetch_loop suiClient parentId sleepBetweenRequests verbose fuel
        acc true cursor pageNumber tr = Some (Throw e, tr')
      /\ requests tr' = requests tr ++ page_requests parentId cursor pages
                        ++ [GetDynamicFields parentId (cursor_after cursor pages)].
Proof.
  induction 1 as [k cursor e Hget | k cursor p ps e Hget Hmore Hrest IH];
    intros fuel acc pageNumber tr Hk Hfuel;
    (destruct fuel as [|fuel]; [simpl in Hfuel; lia|]);
    cbn [fetch_loop negb]; rewrite requests_logged, Hk, Hget.
  - eexists. split; [reflexivity|].
    rewrite requests_app, requests_logged. reflexivity.
  - rewrite Hmore.
    edestruct (IH fuel (acc ++ data p) (S pageNumber)) as (tr' & Hrun & Hreq);
      [ | | rewrite Hrun ].
    + rewrite requests_step, length_app, Hk. simpl. lia.
    + simpl in Hfuel. lia.
    + eexists. split; [reflexivity|].
      rewrite Hreq, requests_step. cbn [page_requests cursor_after].
      now rewrite <- app_assoc.
Qed.

Lemma fetch_loop_trace k cursor pages :
  serves suiClient parentId k cursor pages ->
  forall fuel acc pageNumber tr,
    List.length (requests tr) = k ->
    List.length pages <= fuel ->
    fetch_loop suiClient parentId sleepBetweenRequests verbose fuel
      acc true cursor pageNumber tr
    = Some (Return (acc ++ List.concat (map data pages)),
            tr ++ page_events parentId sleepBetweenRequests verbose cursor pageNumber pages).
Proof.
  induction 1 as [k cursor p Hget Hlast | k cursor p ps Hget Hmore Hrest IH];
    intros fuel acc pageNumber tr Hk Hfuel;
    (destruct fuel as [|fuel]; [simpl in Hfuel; lia|]);
    cbn [fetch_loop negb]; rewrite requests_logged, Hk, Hget.
  - rewrite Hlast.
    assert (Hstop : forall a t, fetch_loop suiClient parentId sleepBetweenRequests
                      verbose fuel a false (nextCursor p) (S pageNumber) t
                    = Some (Return a, t)) by (intros; destruct fuel; reflexivity).
    rewrite Hstop. cbn [map List.concat page_events]. rewrite !app_nil_r.
    do 2 f_equal.
    destruct verbose, (0 <? sleepBetweenRequests)%Z;
      rewrite <- ?app_assoc; reflexivity.
  - rewrite Hmore, IH.
    + cbn [map List.concat page_events]. rewrite <- !app_assoc. do 2 f_equal.
      destruct verbose, (0 <? sleepBetweenRequests)%Z;
        rewrite <- ?app_assoc; reflexivity.
    + rewrite requests_step, length_app, Hk. simpl. lia.
    + simpl in Hfuel. lia.
Qed.

End FieldMore.

Section FieldMoreClaims.

(** When a request of [fetchAllDynamicFields] fails after some pages
    were delivered, the call fails with that very error: the items
    already fetched are not returned, and no request follows the failed
    one. *)
Theorem fetchAllDynamicFields_propagates_failure
    (suiClient : SuiClient) (parentId : string) (sleepBetweenRequests : Z)
    (verbose : bool) (fuel : nat) (tr : Trace)
    (pages : list (Page DynamicFieldInfo)) (e : JsError) :
  fails_after suiClient parentId (List.length (requests tr)) None pages e ->
  List.length pages < fuel ->
  exists tr',
    fetchAllDynamicFields suiClient parentId sleepBetweenRequests verbose fuel tr
    = Some (Throw e, tr')
    /\ requests tr' = requests tr ++ page_requests parentId None pages
                      ++ [GetDynamicFields parentId (cursor_after None pages)].
Proof.
  intros Hf Hfuel.
  apply (fetch_loop_fails suiClient parentId sleepBetweenRequests verbose
           _ _ _ _ Hf fuel [] 1 tr eq_refl Hfuel).
Qed.

Lemma fetchAllDynamicFields_propagates_failure_witness :
  exists tr',
    fetchAllDynamicFields failing "0xparent" 333 false 3 []
    = Some (Throw (mkError "Error" "429 Too Many Requests"), tr')
    /\ requests tr' =
       [ GetDynamicFields "0xparent" None;
         GetDynamicFields "0xparent" (Some "c1");
         GetDynamicFields "0xparent" (Some "c2") ].
Proof.
  apply (fetchAllDynamicFields_propagates_failure failing "0xparent" 333 false 3 []
           [mkPage [f 1; f 2] (Some "c1") true; mkPage [f 3; f 4] (Some "c2") true]
           (mkError "Error" "429 Too Many Requests")).
  - apply fails_later; [reflexivity|reflexivity|].
    apply fails_later; [reflexivity|reflexivity|].
    apply fails_now. reflexivity.
  - simpl. lia.
Defined.

(** On a node that announces a further page with every answer,
    [fetchAllDynamicFields] never returns: the loop is still running
    when the fuel is spent, however much there is. *)
Theorem fetchAllDynamicFields_never_ends
    (suiClient : SuiClient) (parentId : string) (sleepBetweenRequests : Z)
    (verbose : bool) :
  (forall k cursor, exists p,
      getDynamicFields suiClient k parentId cursor = Return p
      /\ hasNextPage p = true) ->
  forall fuel tr,
    fetchAllDynamicFields suiClient parentId sleepBetweenRequests verbose fuel tr = None.
Proof.
  intros Hmore fuel. unfold fetchAllDynamicFields.
  generalize (@nil DynamicFieldInfo) (@None string) 1%nat.
  induction fuel as [|fuel IH]; intros acc cursor pageNumber tr; [reflexivity|].
  cbn [fetch_loop negb].
  match goal with
  | |- context [getDynamicFields suiClient ?k parentId cursor] =>
      destruct (Hmore k cursor) as (p & Hget & Hp)
  end.
  rewrite Hget, Hp. apply IH.
Qed.

Lemma fetchAllDynamicFields_never_ends_witness :
  fetchAllDynamicFields endless "0xparent" 333 false 1000 [] = None.
Proof.
  apply (fetchAllDynamicFields_never_ends endless "0xparent" 333 false).
  intros k cursor. eexists. split; reflexivity.
Defined.

(** On a node that serves [pages], the trace of [fetchAllDynamicFields]
    grows by exactly this, page after page: with [verbose] the line
    "Fetching page k" (k counted from 1), then the request, then, when
    [sleepBetweenRequests] is positive, one pause of that length, also
    behind the last page. *)
Theorem fetchAllDynamicFields_trace
    (suiClient : SuiClient) (parentId : string) (sleepBetweenRequests : Z)
    (verbose : bool) (fuel : nat) (tr : Trace)
    (pages : list (Page DynamicFieldInfo)) :
  serves suiClient parentId (List.length (requests tr)) None pages ->
  List.length pages <= fuel ->
  fetchAllDynamicFields suiClient parentId sleepBetweenRequests verbose fuel tr
  = Some (Return (List.concat (map data pages)),
          tr ++ page_events parentId sleepBetweenRequests verbose None 1 pages).
Proof.
  intros Hs Hfuel.
  apply (fetch_loop_trace suiClient parentId sleepBetweenRequests verbose
           _ _ _ Hs fuel [] 1 tr eq_refl Hfuel).
Qed.

Lemma fetchAllDynamicFields_trace_witness :
  fetchAllDynamicFields (scripted three_pages) "0xparent" 333 true 3 []
  = Some (Return [f 1; f 2; f 3; f 4; f 5],
          [ Logged "Fetching page 1"; Sent (GetDynamicFields "0xparent" None);
            Slept 333;
            Logged "Fetching page 2"; Sent (GetDynamicFields "0xparent" (Some "c1"));
            Slept 333;
            Logged "Fetching page 3"; Sent (GetDynamicFields "0xparent" (Some "c2"));
            Slept 333 ]).
Proof.
  apply (fetchAllDynamicFields_trace (scripted three_pages) "0xparent" 333 true 3 []
           three_pages).
  - apply serves_more; [reflexivity|reflexivity|].
    apply serves_more; [reflexivity|reflexivity|].
    apply serves_last; reflexivity.
  - simpl. lia.
Defined.

End FieldMoreClaims.

(** ** Explorer links *)

Section ExplorerFacts.

Import Explorer.

Lemma append_inv_head (s x y : string) : (s ++ x)%string = (s ++ y)%string -> x = y.
Proof. induction s as [|c t IH]; simpl; [auto|]. intros [= H]. auto. Qed.

Lemma split_first_before (pkg rest : string) :
  no_colon pkg = true -> split_first (pkg ++ "::" ++ rest)%string = pkg.
Proof.
  induction pkg as [|c t IH]; intros H.
  - simpl. now destruct rest.
  - simpl in H. apply andb_prop in H as [Hc Ht].
    change ((String c t ++ "::" ++ rest)%string)
      with (String c (t ++ "::" ++ rest)%string).
    cbn [split_first String.prefix].
    destruct (ascii_dec ":" c) as [E|E].
    + subst c. discriminate.
    + now rewrite IH.
Qed.

Lemma split_first_none (a : string) : no_colon a = true -> split_first a = a.
Proof.
  induction a as [|c t IH]; intros H; [reflexivity|].
  simpl in H. apply andb_prop in H as [Hc Ht].
  cbn [split_first String.prefix].
  destruct (ascii_dec ":" c) as [E|E].
  - subst c. discriminate.
  - now rewrite IH.
Qed.

(** A link to a package is the link to the object of the same address
    on the Polymedia explorer and on Suiscan, for every network; on
    Suivision it is so on a local network only, elsewhere packages have
    a path of their own. *)
Theorem package_links (network addr : string) :
  makePolymediaUrl network package addr = makePolymediaUrl network object addr
  /\ makeSuiscanUrl network package addr = makeSuiscanUrl network object addr
  /\ (makeSuivisionUrl network package addr = makeSuivisionUrl network object addr
      <-> isLocalnet network = true).
Proof.
  split; [reflexivity|]. split.
  - unfold makeSuiscanUrl. destruct (isLocalnet network); reflexivity.
  - unfold makeSuivisionUrl. destruct (isLocalnet network).
    + split; reflexivity.
    + split; [|discriminate].
      intros H. cbv zeta in H. cbn [item_text] in H.
      apply append_inv_head in H. discriminate.
Qed.

(** A link to a coin type on the Polymedia explorer is the link to the
    object of its package: what follows the first ["::"] of the type
    plays no part. *)
Theorem coin_links (network pkg rest : string) :
  no_colon pkg = true ->
  makePolymediaUrl network coin (pkg ++ "::" ++ rest)%string
  = makePolymediaUrl network object pkg
  /\ makePolymediaUrl network coin pkg = makePolymediaUrl network object pkg.
Proof.
  intros H. unfold makePolymediaUrl.
  now rewrite split_first_before, split_first_none.
Qed.

Lemma coin_links_witness :
  makePolymediaUrl "testnet" coin "0x2::sui::SUI"
  = makePolymediaUrl "testnet" object "0x2"
  /\ makePolymediaUrl "testnet" coin "0x2" = makePolymediaUrl "testnet" object "0x2".
Proof.
  apply (coin_links "testnet" "0x2" "sui::SUI"). reflexivity.
Defined.

End ExplorerFacts.

(** ** Abbreviating addresses *)

Section ShortenFacts.

Lemma string_app_nil_r (s : string) : (s ++ "")%string = s.
Proof. induction s as [|c t IH]; simpl; [reflexivity|now rewrite IH]. Qed.

Lemma substring_all (s : string) : substring 0 (String.length s) s = s.
Proof. induction s as [|c t IH]; simpl; [reflexivity|now rewrite IH]. Qed.

Lemma take_hex_all (h : string) : all_hex h = true -> take_hex h = (h, EmptyString).
Proof.
  induction h as [|c t IH]; intros H; [reflexivity|].
  simpl in H. apply andb_prop in H as [Hc Ht].
  cbn [take_hex]. now rewrite Hc, IH.
Qed.

Lemma replace_addresses_empty n r : replace_addresses n r EmptyString = EmptyString.
Proof. destruct n; reflexivity. Qed.

(** A text made of one address is replaced as a whole by what the
    callback returns for it. *)
Lemma replace_addresses_single (r : string -> string) (h : string) :
  all_hex h = true -> h <> EmptyString ->
  replace_addresses (String.length (String "0" (String "x" h))) r
    (String "0" (String "x" h))
  = r (String "0" (String "x" h)).
Proof.
  intros Hh Hne. cbn [String.length replace_addresses match_address].
  change (is_zero "0" && (Ascii.eqb "x" "x" || Ascii.eqb "x" "X")) with true.
  cbv iota. rewrite (take_hex_all h Hh).
  destruct h as [|c t]; [contradiction|].
  rewrite ?replace_addresses_empty. apply string_app_nil_r.
Qed.

Lemma replace_addresses_no_zero n r : forall s,
  no_zero s = true -> replace_addresses n r s = s.
Proof.
  induction n as [|n IH]; intros s H; [reflexivity|].
  destruct s as [|c t]; [reflexivity|].
  simpl in H. apply andb_prop in H as [Hc Ht].
  cbn [replace_addresses match_address].
  apply negb_true_iff in Hc.
  destruct t as [|b u]; [now rewrite IH|].
  rewrite Hc. cbn [andb]. now rewrite IH.
Qed.

Local Open Scope Z_scope.

Lemma slice_head (h : string) (start : Z) :
  0 <= start <= Z.of_nat (String.length h) ->
  String_slice (String "0" (String "x" h)) 2 (2 + start)
  = substring 0 (Z.to_nat start) h.
Proof.
  intros H. unfold String_slice, relative_index. cbn [String.length].
  destruct (2 <? 0) eqn:E1; [discriminate|].
  destruct (2 + start <? 0) eqn:E2; [apply Z.ltb_lt in E2; lia|].
  rewrite !Z.min_l by lia.
  replace (Z.to_nat 2) with 2%nat by reflexivity.
  replace (2 + start - 2) with start by lia. reflexivity.
Qed.

Lemma slice_tail (h : string) (end_ : Z) :
  1 <= end_ <= Z.of_nat (String.length h) ->
  String_slice_from (String "0" (String "x" h)) (- end_)
  = substring (String.length h - Z.to_nat end_) (Z.to_nat end_) h.
Proof.
  intros H. unfold String_slice_from, String_slice, relative_index.
  cbn [String.length].
  destruct (- end_ <? 0) eqn:E1; [|apply Z.ltb_ge in E1; lia].
  destruct (Z.of_nat (S (S (String.length h))) <? 0) eqn:E2;
    [apply Z.ltb_lt in E2; lia|].
  rewrite Z.max_l, Z.min_l by lia.
  replace (Z.to_nat (Z.of_nat (S (S (String.length h))) + - end_))
    with (S (S (String.length h - Z.to_nat end_)))%nat by lia.
  replace (Z.to_nat (Z.of_nat (S (S (String.length h)))
                     - (Z.of_nat (S (S (String.length h))) + - end_)))
    with (Z.to_nat end_) by lia.
  reflexivity.
Qed.

(** An address of more than [start + end] hexadecimal digits, standing
    alone, is abbreviated (with the default prefix) to the prefix, its
    first [start] digits, the separator and its last [end] digits, for
    [end] at least 1. *)
Theorem shortenSuiAddress_abbreviates (h : string) (start end_ : Z) (separator : string) :
  all_hex h = true ->
  0 <= start -> 1 <= end_ ->
  start + end_ < Z.of_nat (String.length h) ->
  shortenSuiAddress (Some ("0x" ++ h)%string) start end_ separator "0x"
  = ("0x" ++ substring 0 (Z.to_nat start) h ++ separator
     ++ substring (String.length h - Z.to_nat end_) (Z.to_nat end_) h)%string.
Proof.
  intros Hh Hs He Hlen.
  change ("0x" ++ h)%string with (String "0" (String "x" h)).
  cbn [shortenSuiAddress].
  rewrite replace_addresses_single; [|exact Hh|intros ->; simpl in Hlen; lia].
  unfold abbreviate. cbn [String.length].
  destruct (_ <=? _) eqn:E; [apply Z.leb_le in E; lia|].
  rewrite slice_head, slice_tail by lia. reflexivity.
Qed.

Lemma shortenSuiAddress_abbreviates_witness :
  shortenSuiAddress
    (Some "0x1234000000000000000000000000000000000000000000000000000000005678")
    4 4 "…" "0x"
  = "0x1234…5678"%string.
Proof.
  apply (shortenSuiAddress_abbreviates
           "1234000000000000000000000000000000000000000000000000000000005678"
           4 4 "…"); [reflexivity|lia|lia|simpl; lia].
Defined.

(** [shortenSuiAddress] gives the empty text for [null], [undefined] and
    the empty text; it returns a text without the digit '0' as it is;
    and it returns an address of at most [start + end] digits, standing
    alone, as it is. *)
Theorem shortenSuiAddress_unchanged (start end_ : Z) (separator : string) :
  shortenSuiAddress None start end_ separator "0x" = EmptyString
  /\ shortenSuiAddress (Some EmptyString) start end_ separator "0x" = EmptyString
  /\ (forall text, no_zero text = true ->
        shortenSuiAddress (Some text) start end_ separator "0x" = text)
  /\ (forall h, all_hex h = true -> h <> EmptyString ->
        Z.of_nat (String.length h) <= start + end_ ->
        shortenSuiAddress (Some ("0x" ++ h)%string) start end_ separator "0x"
        = ("0x" ++ h)%string).
Proof.
  split; [reflexivity|]. split; [reflexivity|]. split.
  - intros text H. destruct text as [|c t]; [reflexivity|].
    cbn [shortenSuiAddress]. now apply replace_addresses_no_zero.
  - intros h Hh Hne Hlen.
    change ("0x" ++ h)%string with (String "0" (String "x" h)).
    cbn [shortenSuiAddress].
    rewrite replace_addresses_single by assumption.
    unfold abbreviate. cbn [String.length].
    destruct (_ <=? _) eqn:E; [reflexivity|apply Z.leb_gt in E; lia].
Qed.

Lemma shortenSuiAddress_unchanged_witness :
  shortenSuiAddress (Some "see the docs") 4 4 "..." "0x" = "see the docs"%string
  /\ shortenSuiAddress (Some "0x12345678") 4 4 "..." "0x" = "0x12345678"%string.
Proof.
  destruct (shortenSuiAddress_unchanged 4 4 "...") as (_ & _ & Htext & Hshort).
  split.
  - apply Htext. reflexivity.
  - apply (Hshort "12345678"); [reflexivity|discriminate|simpl; lia].
Defined.

(** With [end = 0] nothing is cut off at the end: [slice(-0)] is the
    whole match, so the result is the prefix, the first [start] digits,
    the separator and then the full address again. *)
Theorem shortenSuiAddress_end_zero (h : string) (start : Z) (separator : string) :
  all_hex h = true ->
  0 <= start < Z.of_nat (String.length h) ->
  shortenSuiAddress (Some ("0x" ++ h)%string) start 0 separator "0x"
  = ("0x" ++ substring 0 (Z.to_nat start) h ++ separator ++ "0x" ++ h)%string.
Proof.
  intros Hh Hs.
  change ("0x" ++ h)%string with (String "0" (String "x" h)).
  cbn [shortenSuiAddress].
  rewrite replace_addresses_single; [|exact Hh|intros ->; simpl in Hs; lia].
  unfold abbreviate. cbn [String.length].
  destruct (_ <=? _) eqn:E; [apply Z.leb_le in E; lia|].
  rewrite slice_head by lia.
  assert (Hall : String_slice_from (String "0" (String "x" h)) (- 0)
                 = String "0" (String "x" h)).
  { unfold String_slice_from, String_slice, relative_index.
    change (- 0 <? 0) with false. cbv iota.
    destruct (_ <? 0) eqn:E2; [apply Z.ltb_lt in E2; lia|].
    rewrite !Z.min_l by lia.
    rewrite Z.sub_0_r, Nat2Z.id. apply substring_all. }
  rewrite Hall. reflexivity.
Qed.

Lemma shortenSuiAddress_end_zero_witness :
  shortenSuiAddress (Some "0x1234567890") 4 0 "..." "0x"
  = "0x1234...0x1234567890"%string.
Proof.
  apply (shortenSuiAddress_end_zero "1234567890" 4 "..."); [reflexivity|simpl; lia].
Defined.

End ShortenFacts.

(** ** Random addresses *)

Section RandomFacts.

Lemma bytes_ok : forallb byte_ok (map Z.of_nat (seq 0 256)) = true.
Proof. vm_compute. reflexivity. Qed.

Lemma byte_ok_range (b : Z) : (0 <= b < 256)%Z -> byte_ok b = true.
Proof.
  intros H. pose proof bytes_ok as All. rewrite forallb_forall in All.
  apply All. apply in_map_iff. exists (Z.to_nat b). split; [lia|].
  apply in_seq. lia.
Qed.

Lemma floor_byte (r : Q) : (0 <= r)%Q -> (r < 1)%Q -> (0 <= Qfloor (r * 256) < 256)%Z.
Proof.
  intros H0 H1. split.
  - change 0%Z with (Qfloor 0). apply Qfloor_resp_le. nra.
  - pose proof (Qfloor_le (r * 256)) as Hle.
    assert (Hlt : (inject_Z (Qfloor (r * 256)) < inject_Z 256)%Q).
    { eapply Qle_lt_trans; [exact Hle|]. change (inject_Z 256) with 256%Q. nra. }
    now rewrite <- Zlt_Qlt in Hlt.
Qed.

Lemma all_lower_hex_app (s t : string) :
  all_lower_hex (s ++ t) = all_lower_hex s && all_lower_hex t.
Proof.
  induction s as [|c u IH]; simpl; [reflexivity|].
  now rewrite IH, andb_assoc.
Qed.

Lemma string_length_app (s t : string) :
  String.length (s ++ t) = String.length s + String.length t.
Proof. induction s as [|c u IH]; simpl; [reflexivity|now rewrite IH]. Qed.

Lemma join_bytes (parts : list string) :
  Forall (fun s => String.length s = 2 /\ all_lower_hex s = true) parts ->
  String.length (join parts) = 2 * List.length parts
  /\ all_lower_hex (join parts) = true.
Proof.
  induction 1 as [|s l [Hl Hh] _ [IHl IHh]]; [split; reflexivity|].
  cbn [join fold_right]. fold (join l).
  rewrite string_length_app, all_lower_hex_app, Hl, Hh, IHl, IHh.
  split; [simpl; lia|reflexivity].
Qed.

(** When every number drawn lies in [0, 1), as those of [Math.random()]
    do, [generateRandomAddress] returns ["0x"] followed by exactly 64
    digits of [0-9a-f]: 66 characters in all. *)
Theorem generateRandomAddress_well_formed (random : nat -> Q) :
  (forall k, (0 <= random k)%Q /\ (random k < 1)%Q) ->
  exists digits,
    generateRandomAddress random = ("0x" ++ digits)%string
    /\ String.length digits = 64
    /\ all_lower_hex digits = true
    /\ String.length (generateRandomAddress random) = 66.
Proof.
  intros Hr. unfold generateRandomAddress.
  set (parts := map (fun k => randomByteHex (random k)) (seq 0 32)).
  assert (Hparts : Forall (fun s => String.length s = 2 /\ all_lower_hex s = true) parts).
  { apply Forall_forall. intros s Hs. apply in_map_iff in Hs as (k & <- & _).
    destruct (Hr k) as [H0 H1].
    pose proof (byte_ok_range _ (floor_byte _ H0 H1)) as Hb.
    unfold byte_ok in Hb. apply andb_prop in Hb as [Hlen Hhex].
    apply Nat.eqb_eq in Hlen. split; assumption. }
  destruct (join_bytes parts Hparts) as [Hlen Hhex].
  assert (Hn : List.length parts = 32) by (unfold parts; rewrite length_map; reflexivity).
  exists (join parts). split; [reflexivity|].
  rewrite Hlen, Hn. repeat split; auto.
  cbn [String.append String.length]. rewrite Hlen, Hn. reflexivity.
Qed.

Lemma generateRandomAddress_well_formed_witness :
  exists digits,
    generateRandomAddress eighths = ("0x" ++ digits)%string
    /\ String.length digits = 64
    /\ all_lower_hex digits = true
    /\ String.length (generateRandomAddress eighths) = 66.
Proof.
  apply (generateRandomAddress_well_formed eighths).
  intros k. unfold eighths.
  assert (H : (0 <= Z.of_nat (k mod 8) < 8)%Z).
  { pose proof (Nat.mod_upper_bound k 8). lia. }
  set (m := Z.of_nat (k mod 8)) in *.
  split; unfold Qle, Qlt; cbn [Qnum Qden]; lia.
Defined.

Example generateRandomAddress_eighths :
  generateRandomAddress eighths
  = "0x0020406080a0c0e00020406080a0c0e00020406080a0c0e00020406080a0c0e0"%string.
Proof. vm_compute. reflexivity. Qed.

End RandomFacts.

(** ** Dev-inspect *)

Section InspectFacts.

Variable V : Type.
Variable devInspectTransactionBlock :
  string -> TransactionBlock -> Completion DevInspectResults.
Variable stringify_response : DevInspectResults -> string.
Variable stringify_result : SuiExecutionResult -> string.
Variable bcs_string : list Z -> Completion string.
Variable bcs_vector_string : list Z -> Completion (list string).
Variable bcs_de : string -> list Z -> Completion V.

Lemma for_each_returns {A B} (body : A -> Completion B) (l : list A) : forall out,
  for_each body l = Return out -> Forall2 (fun x y => body x = Return y) l out.
Proof.
  induction l as [|x t IH]; intros out H; cbn [for_each] in H.
  - injection H as <-. constructor.
  - unfold bind in H. destruct (body x) as [y|e] eqn:Ex; [|discriminate].
    destruct (for_each body t) as [ys|e]; [|discriminate].
    injection H as <-. constructor; [exact Ex|now apply IH].
Qed.

Lemma for_each_throws {A B} (body : A -> Completion B) (l : list A) :
  Exists (fun x => exists e, body x = Throw e) l ->
  exists e, for_each body l = Throw e.
Proof.
  induction 1 as [x t [e He]|x t _ [e IH]]; cbn [for_each]; unfold bind.
  - rewrite He. eauto.
  - destruct (body x); [rewrite IH|]; eauto.
Qed.

Lemma devInspectAndGetResults_returns txb sender results :
  devInspectAndGetResults devInspectTransactionBlock stringify_response txb sender
  = Return results ->
  exists resp,
    devInspectTransactionBlock (nullish sender default_sender) txb = Return resp
    /\ truthy (resp_error resp) = false
    /\ resp_results resp = Some results
    /\ results <> [].
Proof.
  unfold devInspectAndGetResults, bind. intros H.
  destruct (devInspectTransactionBlock _ txb) as [resp|e]; [|discriminate].
  exists resp. split; [reflexivity|].
  destruct (truthy (resp_error resp)); [discriminate|].
  destruct (resp_results resp) as [[|r rs]|]; try discriminate.
  injection H as <-. repeat split; auto. discriminate.
Qed.

(** When [devInspectAndGetReturnValues] returns, the node answered
    without error text and with at least one transaction, and the value
    returned mirrors the answer: one list per transaction, in order, and
    in it one value per return value of that transaction (at least one),
    each being what the parser for its type made of its bytes. *)
Theorem devInspectAndGetReturnValues_mirrors txb sender blockReturnValues :
  devInspectAndGetReturnValues devInspectTransactionBlock stringify_response
    stringify_result bcs_string bcs_vector_string bcs_de txb sender
  = Return blockReturnValues ->
  exists resp results,
    devInspectTransactionBlock (nullish sender default_sender) txb = Return resp
    /\ truthy (resp_error resp) = false
    /\ resp_results resp = Some results
    /\ blockReturnValues <> []
    /\ Forall2
         (fun txnResult txnReturnValues =>
            exists values,
              returnValues txnResult = Some values
              /\ txnReturnValues <> []
              /\ Forall2
                   (fun value d =>
                      deserialize bcs_string bcs_vector_string bcs_de value = Return d)
                   values txnReturnValues)
         results blockReturnValues.
Proof.
  unfold devInspectAndGetReturnValues. unfold bind at 1. intros H.
  destruct (devInspectAndGetResults _ _ txb sender) as [results|e] eqn:E; [|discriminate].
  apply devInspectAndGetResults_returns in E as (resp & Hnode & Herr & Hres & Hne).
  exists resp, results. repeat (split; [assumption|]).
  apply for_each_returns in H.
  split.
  { intros ->. inversion H. subst. contradiction. }
  eapply Forall2_impl; [|exact H].
  intros r v Hv. unfold transaction_values in Hv.
  destruct (returnValues r) as [[|value values]|]; try discriminate.
  eexists. split; [reflexivity|].
  apply for_each_returns in Hv. split; [|exact Hv].
  intros ->. inversion Hv.
Qed.

(** When the node answers with transactions of which one returned no
    value, [devInspectAndGetReturnValues] throws: the values of the
    other transactions are not returned. *)
Theorem devInspectAndGetReturnValues_missing_values txb sender resp results :
  devInspectTransactionBlock (nullish sender default_sender) txb = Return resp ->
  resp_results resp = Some results ->
  Exists (fun txnResult => has_values txnResult = false) results ->
  exists e,
    devInspectAndGetReturnValues devInspectTransactionBlock stringify_response
      stringify_result bcs_string bcs_vector_string bcs_de txb sender
    = Throw e.
Proof.
  intros Hnode Hres Hex.
  unfold devInspectAndGetReturnValues, devInspectAndGetResults, bind.
  rewrite Hnode. destruct (truthy (resp_error resp)); [eauto|].
  rewrite Hres. destruct results as [|r rs]; [eauto|].
  apply for_each_throws.
  eapply Exists_impl; [|exact Hex].
  intros x Hx. unfold transaction_values, has_values in *.
  destruct (returnValues x) as [[|value values]|]; try discriminate; eauto.
Qed.

End InspectFacts.

Section InspectExamples.

Lemma devInspectAndGetReturnValues_mirrors_witness :
  exists resp results,
    sample_node (nullish None default_sender) [] = Return resp
    /\ truthy (resp_error resp) = false
    /\ resp_results resp = Some results
    /\ [[OneString "4"; Other 8]; [Strings []]] <> []
    /\ Forall2
         (fun txnResult txnReturnValues =>
            exists values,
              returnValues txnResult = Some values
              /\ txnReturnValues <> []
              /\ Forall2
                   (fun value d =>
                      deserialize sample_string sample_strings sample_de value = Return d)
                   values txnReturnValues)
         results [[OneString "4"; Other 8]; [Strings []]].
Proof.
  apply (devInspectAndGetReturnValues_mirrors nat sample_node
           (@sample_text _) (@sample_text _)
           sample_string sample_strings sample_de [] None
           [[OneString "4"; Other 8]; [Strings []]]).
  vm_compute. reflexivity.
Defined.

Lemma devInspectAndGetReturnValues_missing_values_witness :
  exists e,
    devInspectAndGetReturnValues silent_node (@sample_text _) (@sample_text _)
      sample_string sample_strings sample_de [] None
    = Throw e.
Proof.
  eapply (devInspectAndGetReturnValues_missing_values nat silent_node
            (@sample_text _) (@sample_text _)
            sample_string sample_strings sample_de [] None).
  - reflexivity.
  - reflexivity.
  - apply Exists_cons_tl. apply Exists_cons_hd. reflexivity.
Defined.

End InspectExamples.
